(** * Few-shot visual grounding: DynamicFSMDETR and its training loop

    A shallow embedding of [models/dynamic_fs_mdetr_resnet.py] and of the
    training loop of [engine.py].

    Conventions.
    - A tensor is a nested list, outermost axis first; scalars are real
      numbers ([R]) and stand for the finite values of a float tensor.
      Rounding is not modelled. The infinities and NaN are modelled where
      the code can produce them from finite inputs: in the prediction head
      of a decoder stage ([Special]), and in the scalar loss of the training
      loop, which is a primitive binary64 float.
    - Python exceptions are the [Raise] results of the [result] monad.
    - The parent class [DynamicMDETR] is not part of the sources; its
      sub-modules are the fields of the record [DynamicMDETR] and are taken
      as total functions. *)

From Stdlib Require Import String Ascii.
From Stdlib Require Import List ZArith Reals Lra Lia Bool.
From Stdlib Require Import Permutation Sorted.
From Stdlib Require PrimFloat.
Import ListNotations.

Set Implicit Arguments.

(** ** Python results *)

Inductive exn : Type :=
| TypeError
| AttributeError
| AssertionError
| RuntimeError
| ValueError
| IndexError
| SystemExit (code : Z).

Inductive result (A : Type) : Type :=
| Ok (a : A)
| Raise (e : exn).

Arguments Ok {A} a.
Arguments Raise {A} e.

Definition bind {A B : Type} (r : result A) (k : A -> result B) : result B :=
  match r with
  | Ok a => k a
  | Raise e => Raise e
  end.

Declare Scope py_scope.
Delimit Scope py_scope with py.
Notation "x <- r ;; k" := (bind r (fun x => k))
  (at level 61, r at next level, right associativity) : py_scope.
Notation "' p <- r ;; k" := (bind r (fun x => let p := x in k))
  (at level 61, p pattern, r at next level, right associativity) : py_scope.

Definition py_assert (b : bool) : result unit :=
  if b then Ok tt else Raise AssertionError.

(** ** The adaptation policy: [_freeze_model_parameters] *)

Module Freeze.

Local Open Scope string_scope.

(** [needle in name] on Python strings. *)
Fixpoint str_in (needle name : string) : bool :=
  String.prefix needle name ||
  match name with
  | EmptyString => false
  | String _ rest => str_in needle rest
  end.

(** [named_parameters()]: the parameters in registration order, each with
    its [requires_grad] flag. *)
Definition params : Type := list (string * bool).

(** The condition of the [if] of [_freeze_model_parameters]. *)
Definition frozen_by_policy (name : string) : bool :=
  negb (str_in "pseudo_embedding" name)
  && negb (str_in "init_sampling_feature" name)
  && negb (str_in "update_sampling_queries" name).

Definition _freeze_model_parameters (ps : params) : params :=
  map (fun '(name, requires_grad) =>
         if frozen_by_policy name then (name, false) else (name, requires_grad))
      ps.

(** The three parameter groups the policy names: the pseudo-class embedding
    table, the initial-query constant and the query-update projections. *)
Definition adaptable (name : string) : bool :=
  str_in "pseudo_embedding" name
  || str_in "init_sampling_feature" name
  || str_in "update_sampling_queries" name.

(** Assigning a module to an attribute registers its parameters, trainable
    as every fresh [nn.Parameter] is; a parameter already registered under
    the name is replaced in place. *)
Fixpoint register_parameter (name : string) (ps : params) : params :=
  match ps with
  | [] => [(name, true)]
  | (n, g) :: rest =>
      if String.eqb n name then (name, true) :: rest
      else (n, g) :: register_parameter name rest
  end.

Definition trainable (ps : params) : list string :=
  map fst (filter snd ps).

Lemma frozen_by_policy_adaptable name :
  frozen_by_policy name = negb (adaptable name).
Proof.
  unfold frozen_by_policy, adaptable.
  now rewrite !negb_orb.
Qed.

Lemma freeze_names ps : map fst (_freeze_model_parameters ps) = map fst ps.
Proof.
  induction ps as [| [n g] ps IH]; simpl; [reflexivity|].
  destruct (frozen_by_policy n); simpl; now rewrite IH.
Qed.

Lemma freeze_in ps n g :
  In (n, g) (_freeze_model_parameters ps) <->
  exists g0, In (n, g0) ps /\ g = (if frozen_by_policy n then false else g0).
Proof.
  unfold _freeze_model_parameters. rewrite in_map_iff. split.
  - intros [[n0 g0] [E Hin]].
    exists g0.
    destruct (frozen_by_policy n0) eqn:F; inversion E; subst;
      rewrite F; auto.
  - intros [g0 [Hin ->]]. exists (n, g0). split; [|assumption].
    now destruct (frozen_by_policy n).
Qed.


(** The policy only clears flags: what is trainable afterwards is what was
    trainable before and belongs to one of the three groups. *)
Lemma freeze_trainable ps :
  trainable (_freeze_model_parameters ps) = filter adaptable (trainable ps).
Proof.
  unfold trainable. induction ps as [| [n g] ps IH]; simpl; [reflexivity|].
  rewrite frozen_by_policy_adaptable.
  destruct (adaptable n) eqn:A, g; simpl; rewrite ?A, IH; reflexivity.
Qed.



End Freeze.

(** ** Tensors as nested lists *)

Definition vec : Type := list R.
Definition mat : Type := list vec.
Definition tensor3 : Type := list mat.
Definition tensor4 : Type := list tensor3.

Module Tensor.

(** [x.size(0)] *)
Definition size0 {A : Type} (x : list A) : nat := length x.

(** [x.size(1)] of a tensor with at least one row. *)
Definition size1 {A : Type} (x : list (list A)) : nat := length (hd [] x).

(** [x[:n]] and [x[n:]] along the first axis, for [n >= 0]. *)
Definition slice_to {A : Type} (n : nat) (x : list A) : list A := firstn n x.
Definition slice_from {A : Type} (n : nat) (x : list A) : list A := skipn n x.

(** [torch.zeros(n, m)] *)
Definition zeros (n m : nat) : mat := repeat (repeat 0%R m) n.

(** [mask * 1.0] on one entry of a bool tensor. *)
Definition b2r (b : bool) : R := if b then 1%R else 0%R.

(** [x.unsqueeze(1).repeat(1, bs, 1)]: (N, C) to (N, bs, C). *)
Definition unsqueeze1_repeat (bs : nat) (x : mat) : tensor3 :=
  map (fun row => repeat row bs) x.

(** [w.repeat(bs, 1)]: (n, C) to (bs * n, C). *)
Definition repeat0 (bs : nat) (w : mat) : mat := concat (repeat w bs).

(** [x.permute(1, 0, 2)]: (N, M, C) to (M, N, C). *)
Definition permute102 {A : Type} (x : list (list (list A))) : list (list (list A)) :=
  map (fun j => map (fun row => nth j row []) x) (seq 0 (size1 x)).

(** [x.permute(1, 2, 0)]: (N, M, C) to (M, C, N). *)
Definition permute120 (x : tensor3) : tensor3 :=
  map (fun m => map (fun c => map (fun v => nth c v 0%R) m) (seq 0 (size1 m)))
      (permute102 x).

(** [torch.cat(rows, dim=0)] of (1, d) tensors: a non-empty list of rows
    of one width, otherwise torch raises [RuntimeError]. *)
Definition cat_rows (rows : list vec) : result mat :=
  match rows with
  | [] => Raise RuntimeError
  | r :: _ =>
      if forallb (fun x => Nat.eqb (length x) (length r)) rows
      then Ok rows else Raise RuntimeError
  end.

(** [x[idx]] for a Python index already known to be non-negative. *)
Definition getitem {A : Type} (x : list A) (idx : nat) : result A :=
  match nth_error x idx with
  | Some a => Ok a
  | None => Raise IndexError
  end.

(** [x[indices]]: one entry per index, in the order of the indices. *)
Fixpoint index_select {A : Type} (x : list A) (indices : list nat) : result (list A) :=
  match indices with
  | [] => Ok []
  | i :: rest =>
      (a <- getitem x i ;;
       r <- index_select x rest ;;
       Ok (a :: r))%py
  end.

(** [torch.cat(xs, dim=1)] of 2-D tensors: the sizes along axis 0 must
    agree, otherwise torch raises [RuntimeError]. *)
Fixpoint cat_dim1 {A : Type} (xs : list (list (list A))) : result (list (list A)) :=
  match xs with
  | [] => Raise RuntimeError
  | [x] => Ok x
  | x :: rest =>
      (r <- cat_dim1 rest ;;
       if Nat.eqb (length x) (length r)
       then Ok (map (fun '(a, b) => a ++ b) (combine x r))
       else Raise RuntimeError)%py
  end.

(** A token (one entry along axis 0 of a 3-D tensor) of [B] rows of width
    [C]. *)
Definition token_has_shape (B C : nat) (tok : mat) : bool :=
  Nat.eqb (length tok) B && forallb (fun row => Nat.eqb (length row) C) tok.

(** [torch.cat(xs, dim=0)] of 3-D tensors: the sizes along axes 1 and 2 must
    agree, otherwise torch raises [RuntimeError]. Every token is compared
    with the first one; a part without tokens carries no shape in a nested
    list and is passed over. *)
Definition cat_dim0 (xs : list tensor3) : result tensor3 :=
  let tokens := concat xs in
  match tokens with
  | [] => Ok []
  | tok :: _ =>
      if forallb (token_has_shape (length tok) (length (hd [] tok))) tokens
      then Ok tokens else Raise RuntimeError
  end.

(** [torch.cat((a, b), dim=1)] inside a decoder stage, where both operands
    have one row per batch item: the value where the row counts agree (torch
    raises [RuntimeError] where they differ; the pairing here stops at the
    shorter operand). *)
Definition cat2_dim1 {A : Type} (a b : list (list A)) : list (list A) :=
  map (fun '(x, y) => x ++ y) (combine a b).

(** Pointwise sum of two rows of equal width. *)
Definition vadd (a b : vec) : vec :=
  map (fun '(x, y) => (x + y)%R) (combine a b).

(** [x.sum(dim=0)] of an (N, C) tensor, [C] read off the tensor. *)
Definition sum_rows (rows : mat) : vec :=
  fold_right vadd (repeat 0%R (size1 rows)) rows.

(** Sum of a 1-D tensor. *)
Definition rsum (v : vec) : R := fold_right Rplus 0%R v.

Definition sigmoid (x : R) : R := (1 / (1 + exp (- x)))%R.

(** [a + b] of two (1, n) and (1, m) tensors under torch's broadcasting:
    equal widths add pointwise, a width 1 operand is stretched, anything
    else raises [RuntimeError]. *)
Definition add_broadcast (a b : vec) : result vec :=
  if Nat.eqb (length a) (length b) then Ok (vadd a b)
  else if Nat.eqb (length a) 1 then Ok (map (fun y => (hd 0 a + y)%R) b)
  else if Nat.eqb (length b) 1 then Ok (map (fun x => (x + hd 0 b)%R) a)
  else Raise RuntimeError.

(** [F.adaptive_avg_pool2d(x, (1, 1))] followed by [.view(1, d)] on a
    (1, C, H, W) feature map: the mean of every channel plane, as one row of
    [d] entries; [view] raises when the element count is not [d]. *)
Definition plane_mean (plane : mat) : R :=
  (rsum (concat plane) / INR (length (concat plane)))%R.

Definition adaptive_avg_pool2d_view (d : nat) (x : tensor4) : result vec :=
  let pooled := concat (map (map plane_mean) x) in
  if Nat.eqb (length pooled) d then Ok pooled else Raise RuntimeError.

End Tensor.

(** ** The model objects *)

(** An image is a (3, H, W) tensor. *)
Definition image : Type := tensor3.

(** [utils.misc.NestedTensor]: a batch with its padding mask. *)
Record NestedTensor (A : Type) : Type := {
  tensors : list A;
  mask : option (list (list bool))
}.

(** What [visumodel] is called on: the image batch in [forward], the bare
    tensor [template.unsqueeze(0)] in the prompt constructor. *)
Inductive visu_in : Type :=
| VisuNested (x : NestedTensor image)
| VisuTensor (x : list image).

(** The first component of what [visumodel] returns: [forward] unpacks it as
    [(visu_mask, visu_src)], the prompt constructor pools it as a feature
    map. *)
Inductive visu_out : Type :=
| VisuPair (visu_mask : list (list bool)) (visu_src : tensor3)
| VisuMap (feature : tensor4).

(** The attributes of the parent class that this file reads. Where
    [different_transformer] is false, [vl_transformer] is one module, kept at
    index 0. [vl_transformer] returns the [[0]] component of the module's
    result. *)
Record DynamicMDETR : Type := {
  visumodel : visu_in -> visu_out * tensor3;
  visu_proj : tensor3 -> tensor3;
  textmodel : NestedTensor (list Z) -> NestedTensor mat;
  text_proj : tensor3 -> tensor3;
  vl_pos_embed_weight : mat;
  vl_encoder : option (tensor3 -> mat -> tensor3 -> tensor3);
  num_visu_token : nat;
  init_sampling_feature_weight : mat;
  init_reference_point_weight : mat;
  stages : nat;
  feautures_sampling : mat -> mat -> tensor3 -> tensor3 -> nat -> tensor3 * tensor3;
  different_transformer : bool;
  vl_transformer :
    nat -> tensor3 -> tensor3 -> tensor3 -> list (list bool) -> tensor3 -> list tensor3;
  bbox_embed : mat -> mat;
  update_sampling_queries : nat -> mat -> mat
}.

Record Args : Type := {
  args_pseudo_num_classes : nat;
  args_hidden_dim : nat;
  args_vl_hidden_dim : nat;
  args_pseudo_embedding : bool
}.

(** [pseudo_embedding] holds [PseudoEmbedding.embeddings]; an attribute that
    was never assigned is [None]. *)
Record DynamicFSMDETR : Type := {
  super : DynamicMDETR;
  pseudo_num_classes : nat;
  hidden_dim : nat;
  named_parameters : Freeze.params;
  pseudo_embedding : option mat;
  visual_prompts : option mat
}.

(** [DynamicFSMDETR.__init__], on the parent object and the parameters that
    [super().__init__(args)] built. *)
Definition __init__ (args : Args) (parent : DynamicMDETR)
    (parent_params : Freeze.params) : result DynamicFSMDETR :=
  let self := {| super := parent;
                 pseudo_num_classes := args_pseudo_num_classes args;
                 hidden_dim := args_hidden_dim args;
                 named_parameters := parent_params;
                 pseudo_embedding := None;
                 visual_prompts := None |} in
  if args_pseudo_embedding args then
    (_ <- py_assert (Nat.eqb (args_hidden_dim args) (args_vl_hidden_dim args)) ;;
     Ok {| super := parent;
           pseudo_num_classes := args_pseudo_num_classes args;
           hidden_dim := args_hidden_dim args;
           named_parameters := Freeze._freeze_model_parameters parent_params;
           pseudo_embedding := None;
           visual_prompts := None |})%py
  else Ok self.

(** ** The prompt constructor: [_get_visual_prompts] *)

(** [torch.unique(labels)]: the distinct labels in ascending order. *)
Fixpoint insert_unique (x : Z) (l : list Z) : list Z :=
  match l with
  | [] => [x]
  | y :: rest =>
      if (x <? y)%Z then x :: l
      else if (x =? y)%Z then l
      else y :: insert_unique x rest
  end.

Definition unique (labels : list Z) : list Z :=
  fold_right insert_unique [] labels.

(** [(template_labels == label).nonzero(as_tuple=True)[0]] *)
Definition nonzero_eq (template_labels : list Z) (label : Z) : list nat :=
  map fst
      (filter (fun '(_, l) => (l =? label)%Z)
              (combine (seq 0 (length template_labels)) template_labels)).

(** The pooled feature of one template: [visumodel] on
    [template.unsqueeze(0)], then the average pooling and the [view]. *)
Definition template_feature (m : DynamicMDETR) (hidden_dim : nat)
    (template : image) : result vec :=
  match fst (visumodel m (VisuTensor [template])) with
  | VisuMap f => Tensor.adaptive_avg_pool2d_view hidden_dim f
  | VisuPair _ _ => Raise TypeError
  end.

Section PromptConstructor.

(** The state of Python's [random] module with [random.randint(a, b)] for
    [a <= b], and torch's default generator with the initialiser
    [nn.init.normal_] on a fresh (n, d) tensor. *)
Variable rng : Type.
Variable randint : Z -> Z -> rng -> Z * rng.
Variable gen : Type.
Variable normal_ : nat -> nat -> gen -> mat * gen.

Definition py_randint (a b : Z) (s : rng) : result (Z * rng) :=
  if (a <=? b)%Z then Ok (randint a b s) else Raise ValueError.

(** [PseudoEmbedding.__init__] and [PseudoEmbedding.forward] on one index. *)
Definition PseudoEmbedding (n d : nat) (g : gen) : mat * gen := normal_ n d g.

Definition PseudoEmbedding_forward (embeddings : mat) (idx : Z) : result vec :=
  let i := if (idx <? 0)%Z then (Z.of_nat (length embeddings) + idx)%Z else idx in
  if (i <? 0)%Z then Raise IndexError
  else Tensor.getitem embeddings (Z.to_nat i).

(** The body of the inner loop, for one template. *)
Definition template_prompt (m : DynamicMDETR) (embeddings : mat)
    (hidden_dim : nat) (template : image) (s : rng) : result (vec * rng) :=
  (template_feature <- template_feature m hidden_dim template ;;
   '(pseudo_embedding_idx, s') <-
     py_randint 0 (Z.of_nat (Tensor.size0 embeddings) - 1) s ;;
   pseudo <- PseudoEmbedding_forward embeddings pseudo_embedding_idx ;;
   combined_feature <- Tensor.add_broadcast template_feature pseudo ;;
   Ok (combined_feature, s'))%py.

(** [for template in label_templates: ...] *)
Fixpoint label_prompts (m : DynamicMDETR) (embeddings : mat) (hidden_dim : nat)
    (label_templates : list image) (s : rng) : result (list vec * rng) :=
  match label_templates with
  | [] => Ok ([], s)
  | template :: rest =>
      ('(p, s1) <- template_prompt m embeddings hidden_dim template s ;;
       '(ps, s2) <- label_prompts m embeddings hidden_dim rest s1 ;;
       Ok (p :: ps, s2))%py
  end.

(** [for label in unique_labels: ...] *)
Fixpoint all_prompts (m : DynamicMDETR) (embeddings : mat) (hidden_dim : nat)
    (templates : list image) (template_labels : list Z)
    (unique_labels : list Z) (s : rng) : result (list vec * rng) :=
  match unique_labels with
  | [] => Ok ([], s)
  | label :: rest =>
      (label_templates <-
         Tensor.index_select templates (nonzero_eq template_labels label) ;;
       '(ps, s1) <- label_prompts m embeddings hidden_dim label_templates s ;;
       '(qs, s2) <- all_prompts m embeddings hidden_dim templates template_labels rest s1 ;;
       Ok (ps ++ qs, s2))%py
  end.

Definition _get_visual_prompts (self : DynamicFSMDETR) (s : rng) (g : gen)
    (templates : list image) (template_labels : list Z) (hidden_dim_arg : nat)
    : result (DynamicFSMDETR * rng * gen) :=
  let '(embeddings, g') :=
    PseudoEmbedding (pseudo_num_classes self) (hidden_dim self) g in
  ('(prompts, s') <-
     all_prompts (super self) embeddings hidden_dim_arg templates template_labels
                 (unique template_labels) s ;;
   bank <- Tensor.cat_rows prompts ;;
   Ok ({| super := super self;
          pseudo_num_classes := pseudo_num_classes self;
          hidden_dim := hidden_dim self;
          named_parameters :=
            Freeze.register_parameter "pseudo_embedding.embeddings"
                                      (named_parameters self);
          pseudo_embedding := Some embeddings;
          visual_prompts := Some bank |}, s', g'))%py.

End PromptConstructor.

(** ** [forward] *)

(** *** Fusion: concatenation, encoder, split (steps 1.3 to 2.2) *)

Record fused : Type := {
  visu_feat : tensor3;
  fused_language_feat : tensor3;
  v_pos : tensor3;
  l_pos : tensor3
}.

Definition fuse_and_split (m : DynamicMDETR) (bs : nat) (prompts : mat)
    (visu_mask : list (list bool)) (visu_src : tensor3)
    (text_mask : list (list bool)) (text_src : tensor3) : result fused :=
  let visual_prompts := Tensor.unsqueeze1_repeat bs prompts in
  (vl_src <- Tensor.cat_dim0 [visual_prompts; visu_src; text_src] ;;
   vl_mask <-
     Tensor.cat_dim1 [Tensor.zeros (Tensor.size0 visual_prompts) bs;
                      map (map Tensor.b2r) visu_mask;
                      map (map Tensor.b2r) text_mask] ;;
   let vl_pos := Tensor.unsqueeze1_repeat bs (vl_pos_embed_weight m) in
   let vl_feat :=
     match vl_encoder m with
     | Some encoder => encoder vl_src vl_mask vl_pos
     | None => vl_src
     end in
   let num_prompts := Tensor.size0 prompts in
   Ok {| visu_feat := Tensor.slice_to (num_visu_token m) vl_feat;
         fused_language_feat :=
           Tensor.slice_from (num_prompts + num_visu_token m) vl_feat;
         v_pos := Tensor.slice_to (num_visu_token m) vl_pos;
         l_pos := Tensor.slice_from (num_visu_token m) vl_pos |})%py.

(** *** One decoder stage (step 2.3) *)

Record dec_state : Type := {
  sampling_query : mat;
  reference_point : mat;
  language_feat : tensor3;
  pred_box : option mat
}.

(** [(1 - text_mask * 1.0)], the trailing unit axis left implicit. *)
Definition text_select (text_mask : list (list bool)) : mat :=
  map (map (fun b => (1 - Tensor.b2r b * 1)%R)) text_mask.

(** [text_select.sum(dim=1)] *)
Definition text_select_num (select : mat) : vec := map Tensor.rsum select.

(** [text_select * x] for one batch item: every row of [x] scaled by its
    entry of [text_select]. *)
Definition weigh (select_b : vec) (x_b : mat) : mat :=
  map (fun '(s, row) => map (Rmult s) row) (combine select_b x_b).

(** [(text_select * x.permute(1,0,2)).sum(dim=1) / text_select_num], as a
    value over the real numbers: what the expression computes where [x] has
    one token per text position and one row per batch item, and every batch
    item has a valid token. For an item of padding only the code divides 0
    by 0 and returns NaN ([Special.masked_pool]); on other shapes torch
    broadcasts or raises, and the pairing here stops at the shorter
    operand. *)
Definition masked_pool (text_mask : list (list bool)) (x : tensor3) : mat :=
  let select := text_select text_mask in
  let weighted :=
    map (fun '(select_b, x_b) => weigh select_b x_b)
        (combine select (Tensor.permute102 x)) in
  map (fun '(row, n) => map (fun v => (v / n)%R) row)
      (combine (map Tensor.sum_rows weighted) (text_select_num select)).

(** [self.bbox_embed(vg_hs).sigmoid()] *)
Definition box_head (m : DynamicMDETR) (vg_hs : mat) : mat :=
  map (map Tensor.sigmoid) (bbox_embed m vg_hs).

(** Sampling and text-guided decoding of stage [i]: the value of [vg_hs[0]]
    after the transformer call. *)
Definition decode (m : DynamicMDETR) (f : fused) (text_mask : list (list bool))
    (i : nat) (st : dec_state) : tensor3 :=
  let '(sampled_features, pe) :=
    feautures_sampling m (sampling_query st) (reference_point st)
                       (Tensor.permute120 (visu_feat f))
                       (Tensor.permute120 (v_pos f)) i in
  let vg_hs :=
    vl_transformer m (if different_transformer m then i else 0)
                   sampled_features (language_feat st) pe text_mask (l_pos f) in
  hd [] vg_hs.

Definition stage (m : DynamicMDETR) (f : fused) (text_mask : list (list bool))
    (i : nat) (st : dec_state) : dec_state :=
  let vg_hs0 := decode m f text_mask i st in
  let vg_hs := masked_pool text_mask vg_hs0 in
  let box := box_head m vg_hs in
  {| sampling_query :=
       update_sampling_queries m i (Tensor.cat2_dim1 vg_hs (sampling_query st));
     reference_point := map (Tensor.slice_to 2) box;
     language_feat := vg_hs0;
     pred_box := Some box |}.

(** [for i in range(0, self.stages)] *)
Definition decoder_loop (m : DynamicMDETR) (f : fused)
    (text_mask : list (list bool)) (n : nat) (st : dec_state) : dec_state :=
  fold_left (fun st i => stage m f text_mask i st) (seq 0 n) st.

Definition initial_state (m : DynamicMDETR) (bs : nat) (f : fused) : dec_state :=
  {| sampling_query := Tensor.repeat0 bs (init_sampling_feature_weight m);
     reference_point := Tensor.repeat0 bs (init_reference_point_weight m);
     language_feat := fused_language_feat f;
     pred_box := None |}.

(** *** The whole method *)

Definition forward (self : DynamicFSMDETR) (img_data : NestedTensor image)
    (text_data : NestedTensor (list Z)) : result (option mat) :=
  let m := super self in
  let bs := Tensor.size0 (tensors img_data) in
  ('(visu_mask, visu_src) <-
     match fst (visumodel m (VisuNested img_data)) with
     | VisuPair visu_mask visu_src => Ok (visu_mask, visu_src)
     | VisuMap _ => Raise ValueError
     end ;;
   let visu_src := visu_proj m visu_src in
   let text_fea := textmodel m text_data in
   text_mask <-
     match mask text_fea with
     | Some text_mask => Ok text_mask
     | None => Raise AssertionError
     end ;;
   let text_src := Tensor.permute102 (text_proj m (tensors text_fea)) in
   prompts <-
     match visual_prompts self with
     | Some prompts => Ok prompts
     | None => Raise AttributeError
     end ;;
   f <- fuse_and_split m bs prompts visu_mask visu_src text_mask text_src ;;
   Ok (pred_box (decoder_loop m f text_mask (stages m) (initial_state m bs f))))%py.

(** Calling the model: [nn.Module.__call__] passes its positional arguments on
    to [forward(self, img_data, text_data)]. *)
Inductive pyval : Type :=
| PyImages (x : NestedTensor image)
| PyText (x : NestedTensor (list Z))
| PyImageList (xs : list (NestedTensor image))
| PyTextList (xs : list (NestedTensor (list Z)))
| PyLabels (labels : list Z).

Definition module_call (self : DynamicFSMDETR) (args : list pyval)
    : result (option mat) :=
  match args with
  | [img_data; text_data] =>
      match img_data, text_data with
      | PyImages img, PyText txt => forward self img txt
      | _, _ => Raise AttributeError
      end
  | _ => Raise TypeError
  end.

(** ** A small concrete model

    One channel, two visual tokens per image, an identity fusion encoder and
    a decoder whose sub-modules pass their inputs on. It is the model of the
    concrete runs below. *)

Module Toy.

Definition backbone (x : visu_in) : visu_out * tensor3 :=
  match x with
  | VisuNested nt =>
      (VisuPair (map (fun _ => [false; false]) (tensors nt))
                [map (fun _ => [1%R]) (tensors nt);
                 map (fun _ => [2%R]) (tensors nt)], [])
  | VisuTensor imgs => (VisuMap imgs, [])
  end.

Definition bert (x : NestedTensor (list Z)) : NestedTensor mat :=
  {| tensors := map (map (fun id => [IZR id])) (tensors x); mask := mask x |}.

Definition model (n_stages : nat) : DynamicMDETR :=
  {| visumodel := backbone;
     visu_proj := fun x => x;
     textmodel := bert;
     text_proj := fun x => x;
     vl_pos_embed_weight := [[0%R]; [0%R]; [0%R]];
     vl_encoder := None;
     num_visu_token := 2;
     init_sampling_feature_weight := [[0%R]];
     init_reference_point_weight := [[0%R; 0%R]];
     stages := n_stages;
     feautures_sampling := fun _ _ v p _ => (v, p);
     different_transformer := false;
     vl_transformer := fun _ _ lang _ _ _ => [lang];
     bbox_embed := map (fun row => [hd 0%R row; 0%R; 0%R; 0%R]);
     update_sampling_queries := fun _ => map (firstn 1) |}.

(** One image, and the one-token query [7]. *)
Definition img_data : NestedTensor image :=
  {| tensors := [[[[0%R]]]]; mask := Some [[false]] |}.

Definition text_data : NestedTensor (list Z) :=
  {| tensors := [[7%Z]]; mask := Some [[false]] |}.

(** The model object once a bank of one prompt has been stored. *)
Definition self (n_stages : nat) : DynamicFSMDETR :=
  {| super := model n_stages;
     pseudo_num_classes := 2;
     hidden_dim := 1;
     named_parameters := [];
     pseudo_embedding := Some [[4%R]; [5%R]];
     visual_prompts := Some [[9%R]] |}.

End Toy.

(** ** Fusion and split *)

(** A token of [B] rows of width [C]. *)
Definition token_shape (B C : nat) (tok : mat) : Prop :=
  length tok = B /\ Forall (fun row => length row = C) tok.

Lemma cat_dim0_ok (xs : list tensor3) (r : tensor3) :
  Tensor.cat_dim0 xs = Ok r -> r = concat xs.
Proof.
  unfold Tensor.cat_dim0. cbv zeta.
  destruct (concat xs) as [| tok rest]; [now intros [= <-]|].
  destruct (forallb _ _); [now intros [= <-] | discriminate].
Qed.

Lemma cat_dim0_raises (xs : list tensor3) (e : exn) :
  Tensor.cat_dim0 xs = Raise e -> e = RuntimeError.
Proof.
  unfold Tensor.cat_dim0. cbv zeta.
  destruct (concat xs) as [| tok rest]; [discriminate|].
  destruct (forallb _ _); [discriminate | now intros [= <-]].
Qed.

(** The concatenation along axis 0 succeeds on tokens of one shape. *)
Lemma cat_dim0_shapes (B C : nat) (xs : list tensor3) :
  Forall (token_shape B C) (concat xs) ->
  Tensor.cat_dim0 xs = Ok (concat xs).
Proof.
  intros H. unfold Tensor.cat_dim0. cbv zeta.
  destruct (concat xs) as [| tok rest] eqn:E; [reflexivity|].
  replace (forallb _ (tok :: rest)) with true; [reflexivity|].
  symmetry. apply forallb_forall. intros t Ht.
  rewrite Forall_forall in H.
  destruct (H tok (or_introl eq_refl)) as [Hlen Hrows].
  destruct (H t Ht) as [Hlen' Hrows'].
  unfold Tensor.token_has_shape. apply andb_true_iff. split.
  - apply Nat.eqb_eq. congruence.
  - apply forallb_forall. intros row Hrow. apply Nat.eqb_eq.
    rewrite Forall_forall in Hrows, Hrows'.
    destruct tok as [| r0 tok0].
    + simpl in Hlen. subst B. destruct t; [destruct Hrow | discriminate Hlen'].
    + simpl. rewrite (Hrows' row Hrow). symmetry. apply Hrows. now left.
Qed.

(** A bank row repeated over the batch is a token of [bs] rows. *)
Lemma unsqueeze1_repeat_shape (bs C : nat) (x : mat) :
  Forall (fun row => length row = C) x ->
  Forall (token_shape bs C) (Tensor.unsqueeze1_repeat bs x).
Proof.
  intros H. unfold Tensor.unsqueeze1_repeat. apply Forall_map.
  eapply Forall_impl; [|exact H]. intros row Hrow. split.
  - apply repeat_length.
  - apply Forall_forall. intros r Hr. apply repeat_spec in Hr. now subst.
Qed.

Section FusionSplit.

Variable m : DynamicMDETR.
Variables (bs : nat) (prompts : mat).
Variables (visu_mask text_mask : list (list bool)).
Variables (visu_src text_src : tensor3).

Lemma unsqueeze1_repeat_length (n : nat) (x : mat) :
  length (Tensor.unsqueeze1_repeat n x) = length x.
Proof. unfold Tensor.unsqueeze1_repeat. apply length_map. Qed.

(** The sequence handed to the encoder has P + HW + L tokens. *)
Lemma vl_src_length :
  length (Tensor.unsqueeze1_repeat bs prompts ++ visu_src ++ text_src)
  = length prompts + length visu_src + length text_src.
Proof. rewrite !length_app, unsqueeze1_repeat_length. lia. Qed.

(** Whenever the split is reached, behind a length-preserving encoder, the
    two streams have HW and L tokens. *)
Lemma fuse_and_split_lengths (f : fused) :
  (forall enc src msk pos, vl_encoder m = Some enc ->
                           length (enc src msk pos) = length src) ->
  length visu_src = num_visu_token m ->
  fuse_and_split m bs prompts visu_mask visu_src text_mask text_src = Ok f ->
  length (visu_feat f) = num_visu_token m /\
  length (fused_language_feat f) = length text_src.
Proof.
  intros Henc HHW. unfold fuse_and_split.
  destruct (Tensor.cat_dim0 _) as [vl_src | e] eqn:Hcat; cbn [bind];
    [|discriminate].
  apply cat_dim0_ok in Hcat. simpl in Hcat. rewrite app_nil_r in Hcat.
  subst vl_src.
  destruct (Tensor.cat_dim1 _) as [vl_mask | e]; simpl; [|discriminate].
  intros E. inversion E; subst f; clear E. simpl.
  unfold Tensor.slice_to, Tensor.slice_from, Tensor.size0.
  rewrite length_firstn, length_skipn.
  destruct (vl_encoder m) as [enc |] eqn:E;
    [rewrite (Henc enc _ _ _ eq_refl)|]; rewrite vl_src_length; lia.
Qed.

(** Without an encoder the text stream is the text tokens, and the visual
    stream is the first HW tokens of prompts followed by visual tokens. *)
Lemma fuse_and_split_identity (f : fused) :
  vl_encoder m = None ->
  length visu_src = num_visu_token m ->
  fuse_and_split m bs prompts visu_mask visu_src text_mask text_src = Ok f ->
  fused_language_feat f = text_src /\
  visu_feat f =
    firstn (num_visu_token m) (Tensor.unsqueeze1_repeat bs prompts ++ visu_src).
Proof.
  intros Henc HHW. unfold fuse_and_split.
  destruct (Tensor.cat_dim0 _) as [vl_src | e] eqn:Hcat; cbn [bind];
    [|discriminate].
  apply cat_dim0_ok in Hcat. simpl in Hcat. rewrite app_nil_r in Hcat.
  subst vl_src.
  destruct (Tensor.cat_dim1 _) as [vl_mask | e]; simpl; [|discriminate].
  intros E. inversion E; subst f; clear E. simpl. rewrite Henc.
  unfold Tensor.slice_to, Tensor.slice_from, Tensor.size0. split.
  - rewrite app_assoc, skipn_app.
    rewrite length_app, unsqueeze1_repeat_length, HHW, Nat.sub_diag. simpl.
    rewrite skipn_all2; [reflexivity|].
    rewrite length_app, unsqueeze1_repeat_length. lia.
  - rewrite app_assoc, firstn_app.
    rewrite length_app, unsqueeze1_repeat_length.
    replace (num_visu_token m - (length prompts + length visu_src)) with 0 by lia.
    simpl. now rewrite app_nil_r.
Qed.

End FusionSplit.

(** C1, at one prompt [9], visual tokens [1] and [2], text token [3], batch
    size 1 and no encoder: the split succeeds, the text stream is the text
    token, and the stream returned as visual is the prompt token followed by
    the first visual token, not the two visual tokens. *)
Theorem fuse_and_split_keeps_prompt_token :
  exists f,
    fuse_and_split (Toy.model 1) 1 [[9%R]] [[false; false]]
                   [[[1%R]]; [[2%R]]] [[false]] [[[3%R]]] = Ok f /\
    fused_language_feat f = [[[3%R]]] /\
    visu_feat f = [[[9%R]]; [[1%R]]] /\
    visu_feat f <> [[[1%R]]; [[2%R]]].
Proof.
  eexists. split; [reflexivity|]. simpl.
  split; [reflexivity|]. split; [reflexivity|].
  intros E. inversion E. lra.
Qed.

(** ** Masked pooling over the text length *)

Definition count_valid (mask_b : list bool) : nat :=
  length (filter negb mask_b).

Lemma nth_error_map_combine {A B C : Type} (g : A * B -> C)
    (xs : list A) (ys : list B) (k : nat) (x : A) (y : B) :
  nth_error xs k = Some x -> nth_error ys k = Some y ->
  nth_error (map g (combine xs ys)) k = Some (g (x, y)).
Proof.
  revert ys k. induction xs as [| x0 xs IH]; intros [| y0 ys] [| k]; simpl;
    try discriminate.
  - intros Hx Hy. now inversion Hx; inversion Hy.
  - apply IH.
Qed.

Lemma permute102_nth_error {A : Type} (x : list (list (list A))) (b : nat) :
  b < Tensor.size1 x ->
  nth_error (Tensor.permute102 x) b = Some (map (fun tok => nth b tok []) x).
Proof.
  intros Hb. unfold Tensor.permute102.
  rewrite nth_error_map, nth_error_nth' with (d := 0) by now rewrite length_seq.
  now rewrite seq_nth.
Qed.

Lemma select_sum_count (mask_b : list bool) :
  Tensor.rsum (map (fun b => (1 - Tensor.b2r b * 1)%R) mask_b)
  = INR (count_valid mask_b).
Proof.
  unfold count_valid.
  induction mask_b as [| b rest IH]; [reflexivity|].
  cbn [map Tensor.rsum fold_right filter]. fold (Tensor.rsum) in *.
  change (fold_right Rplus 0%R (map (fun b => (1 - Tensor.b2r b * 1)%R) rest))
    with (Tensor.rsum (map (fun b => (1 - Tensor.b2r b * 1)%R) rest)).
  rewrite IH. destruct b; cbn [negb Tensor.b2r length].
  - lra.
  - rewrite S_INR. lra.
Qed.






Lemma masked_pool_nth_error (text_mask : list (list bool)) (x : tensor3)
    (b : nat) (mask_b : list bool) :
  nth_error text_mask b = Some mask_b ->
  b < Tensor.size1 x ->
  nth_error (masked_pool text_mask x) b
  = Some (map (fun v => (v / INR (count_valid mask_b))%R)
              (Tensor.sum_rows
                 (weigh (map (fun b => (1 - Tensor.b2r b * 1)%R) mask_b)
                        (map (fun tok => nth b tok []) x)))).
Proof.
  intros Hmask Hb. unfold masked_pool.
  assert (Hsel : nth_error (text_select text_mask) b
                 = Some (map (fun b => (1 - Tensor.b2r b * 1)%R) mask_b)).
  { unfold text_select. now rewrite nth_error_map, Hmask. }
  assert (Hnum : nth_error (text_select_num (text_select text_mask)) b
                 = Some (INR (count_valid mask_b))).
  { unfold text_select_num. rewrite nth_error_map, Hsel. simpl.
    now rewrite select_sum_count. }
  erewrite nth_error_map_combine; [reflexivity | | exact Hnum].
  rewrite nth_error_map.
  erewrite nth_error_map_combine;
    [reflexivity | exact Hsel | now apply permute102_nth_error].
Qed.



(** ** The decoder stages *)

Definition in01 (x : R) : Prop := (0 <= x <= 1)%R.

Lemma sigmoid_range (x : R) : (0 < Tensor.sigmoid x < 1)%R.
Proof.
  unfold Tensor.sigmoid. pose proof (exp_pos (- x)) as He.
  split.
  - apply Rdiv_lt_0_compat; lra.
  - apply Rmult_lt_reg_r with (r := (1 + exp (- x))%R); [lra|].
    unfold Rdiv. rewrite Rmult_assoc, Rinv_l by lra. lra.
Qed.

Lemma decoder_loop_S (m : DynamicMDETR) (f : fused)
    (text_mask : list (list bool)) (n : nat) (st : dec_state) :
  decoder_loop m f text_mask (S n) st
  = stage m f text_mask n (decoder_loop m f text_mask n st).
Proof.
  unfold decoder_loop. rewrite seq_S, fold_left_app. reflexivity.
Qed.

(** *** The prediction head over IEEE special values

    The real numbers above stand for the finite values of a float tensor.
    Lines 131 to 140 are modelled here a second time, over values that are a
    real number, an infinity or NaN, with the IEEE rules for the special
    values. Rounding and overflow are left out, and a zero divisor counts as
    positive. *)

Module Special.

Inductive fval : Type :=
| Num (r : R)
| PInf
| NInf
| NaN.

Definition fneg (x : fval) : fval :=
  match x with
  | Num r => Num (- r)
  | PInf => NInf
  | NInf => PInf
  | NaN => NaN
  end.

Definition fexp (x : fval) : fval :=
  match x with
  | Num r => Num (exp r)
  | PInf => PInf
  | NInf => Num 0
  | NaN => NaN
  end.

Definition fadd (x y : fval) : fval :=
  match x, y with
  | NaN, _ | _, NaN => NaN
  | Num a, Num b => Num (a + b)
  | PInf, NInf | NInf, PInf => NaN
  | PInf, _ | _, PInf => PInf
  | NInf, _ | _, NInf => NInf
  end.

Definition fsub (x y : fval) : fval := fadd x (fneg y).

(** An infinity times [a]: NaN for zero, otherwise the sign of the product. *)
Definition scale_inf (positive : bool) (a : R) : fval :=
  if Req_EM_T a 0 then NaN
  else if Rlt_dec 0 a then (if positive then PInf else NInf)
       else (if positive then NInf else PInf).

Definition fmul (x y : fval) : fval :=
  match x, y with
  | NaN, _ | _, NaN => NaN
  | Num a, Num b => Num (a * b)
  | Num a, PInf | PInf, Num a => scale_inf true a
  | Num a, NInf | NInf, Num a => scale_inf false a
  | PInf, PInf | NInf, NInf => PInf
  | PInf, NInf | NInf, PInf => NInf
  end.

Definition fdiv (x y : fval) : fval :=
  match x, y with
  | NaN, _ | _, NaN => NaN
  | Num a, Num b =>
      if Req_EM_T b 0 then
        (if Req_EM_T a 0 then NaN else if Rlt_dec 0 a then PInf else NInf)
      else Num (a / b)
  | Num _, (PInf | NInf) => Num 0
  | PInf, Num b => if Rlt_dec b 0 then NInf else PInf
  | NInf, Num b => if Rlt_dec b 0 then PInf else NInf
  | (PInf | NInf), (PInf | NInf) => NaN
  end.

(** [x.sigmoid()] on one entry. *)
Definition sigmoid (x : fval) : fval :=
  fdiv (Num 1) (fadd (Num 1) (fexp (fneg x))).

(** [(1 - text_mask * 1.0)] *)
Definition text_select (text_mask : list (list bool)) : list (list fval) :=
  map (map (fun b => fsub (Num 1) (fmul (Num (Tensor.b2r b)) (Num 1))))
      text_mask.

Definition fsum (v : list fval) : fval := fold_right fadd (Num 0) v.

(** [text_select.sum(dim=1)] *)
Definition text_select_num (select : list (list fval)) : list fval :=
  map fsum select.

Definition weigh (select_b : list fval) (x_b : list (list fval))
    : list (list fval) :=
  map (fun '(s, row) => map (fmul s) row) (combine select_b x_b).

Definition vadd (a b : list fval) : list fval :=
  map (fun '(x, y) => fadd x y) (combine a b).

Definition sum_rows (rows : list (list fval)) : list fval :=
  fold_right vadd (repeat (Num 0) (Tensor.size1 rows)) rows.

(** [(text_select * x.permute(1,0,2)).sum(dim=1) / text_select_num] *)
Definition masked_pool (text_mask : list (list bool))
    (x : list (list (list fval))) : list (list fval) :=
  let select := text_select text_mask in
  let weighted :=
    map (fun '(select_b, x_b) => weigh select_b x_b)
        (combine select (Tensor.permute102 x)) in
  map (fun '(row, n) => map (fun v => fdiv v n) row)
      (combine (map sum_rows weighted) (text_select_num select)).

(** Lines 131 to 140 of a stage, on the decoded text stream [x] of that
    stage: the box and the reference point after its update. *)
Definition prediction_head
    (bbox_embed : list (list fval) -> list (list fval))
    (text_mask : list (list bool)) (x : list (list (list fval)))
    : list (list fval) * list (list fval) :=
  let vg_hs := masked_pool text_mask x in
  let pred_box := map (map sigmoid) (bbox_embed vg_hs) in
  (pred_box, map (Tensor.slice_to 2) pred_box).

(** A finite value of [0,1]. *)
Definition in_unit (v : fval) : Prop :=
  match v with
  | Num r => (0 <= r <= 1)%R
  | PInf | NInf | NaN => False
  end.

(** The box head of the small model: the first channel of the pooled vector
    as the first pre-activation value, zero for the three others. *)
Definition toy_bbox_embed (vg_hs : list (list fval)) : list (list fval) :=
  map (fun row => [hd (Num 0) row; Num 0; Num 0; Num 0]) vg_hs.

End Special.

Lemma special_sigmoid_num (r : R) :
  Special.sigmoid (Special.Num r) = Special.Num (Tensor.sigmoid r).
Proof.
  unfold Special.sigmoid, Tensor.sigmoid.
  cbn [Special.fneg Special.fexp Special.fadd Special.fdiv].
  destruct (Req_EM_T (1 + exp (- r)) 0) as [E | _]; [|reflexivity].
  pose proof (exp_pos (- r)). lra.
Qed.

(** The sigmoid takes every value but NaN into [0,1], the infinities to 1
    and 0; NaN it returns. *)
Lemma special_sigmoid_range (v : Special.fval) :
  match v with
  | Special.NaN => Special.sigmoid v = Special.NaN
  | Special.PInf => Special.sigmoid v = Special.Num (1 / (1 + 0))
  | Special.NInf => Special.sigmoid v = Special.Num 0
  | Special.Num _ => True
  end /\
  (v <> Special.NaN -> Special.in_unit (Special.sigmoid v)).
Proof.
  destruct v as [r | | |].
  - split; [exact I|]. intros _. rewrite special_sigmoid_num.
    pose proof (sigmoid_range r). simpl. lra.
  - assert (E : Special.sigmoid Special.PInf = Special.Num (1 / (1 + 0))).
    { unfold Special.sigmoid.
      cbn [Special.fneg Special.fexp Special.fadd Special.fdiv].
      destruct (Req_EM_T (1 + 0) 0) as [E | _]; [lra | reflexivity]. }
    split; [exact E|]. intros _. rewrite E. simpl.
    replace (1 / (1 + 0))%R with 1%R by field. lra.
  - split; [reflexivity|]. intros _.
    change (Special.sigmoid Special.NInf) with (Special.Num 0). simpl. lra.
  - split; [reflexivity|]. intros H. now contradiction H.
Qed.

Lemma special_slice_range (n : nat) (box : list (list Special.fval)) :
  Forall (Forall Special.in_unit) box ->
  Forall (Forall Special.in_unit) (map (Tensor.slice_to n) box).
Proof.
  intros H. apply Forall_map. eapply Forall_impl; [|exact H].
  intros row Hrow. unfold Tensor.slice_to.
  rewrite Forall_forall in *. intros x Hx. apply Hrow.
  rewrite <- (firstn_skipn n row). apply in_or_app. now left.
Qed.

(** C6, as stated, fails: for a batch item whose text is all padding the
    pooling step divides 0 by 0, the pooled vector is NaN, the pre-activation
    value the box head derives from it is NaN, and so are the first
    coordinate of the box and of the reference point: they are not in
    [0,1]. *)
Lemma all_padding_box_is_nan :
  Special.prediction_head Special.toy_bbox_embed [[true]]
                          [[[Special.Num 5]]]
  = ([[Special.NaN; Special.sigmoid (Special.Num 0);
       Special.sigmoid (Special.Num 0); Special.sigmoid (Special.Num 0)]],
     [[Special.NaN; Special.sigmoid (Special.Num 0)]]) /\
  ~ Forall (Forall Special.in_unit)
      (fst (Special.prediction_head Special.toy_bbox_embed [[true]]
                                    [[[Special.Num 5]]])) /\
  ~ Forall (Forall Special.in_unit)
      (snd (Special.prediction_head Special.toy_bbox_embed [[true]]
                                    [[[Special.Num 5]]])).
Proof.
  assert (E : Special.masked_pool [[true]] [[[Special.Num 5]]]
              = [[Special.NaN]]).
  { unfold Special.masked_pool, Special.text_select, Special.text_select_num,
      Special.weigh, Special.sum_rows, Special.vadd, Special.fsum,
      Special.fsub, Tensor.permute102, Tensor.size1, Tensor.b2r.
    cbn [map combine hd length seq nth fold_right repeat
         Special.fmul Special.fadd Special.fneg Special.fdiv].
    destruct (Req_EM_T _ _) as [_ | H]; [|exfalso; apply H; lra].
    destruct (Req_EM_T _ _) as [_ | H]; [|exfalso; apply H; lra].
    reflexivity. }
  unfold Special.prediction_head. cbv zeta. rewrite E.
  cbn [Special.toy_bbox_embed map hd fst snd Tensor.slice_to firstn].
  change (Special.sigmoid Special.NaN) with Special.NaN.
  split; [reflexivity|].
  split; intros H; inversion H as [| ? ? Hrow _]; subst;
    inversion Hrow as [| ? ? Hnan _]; exact Hnan.
Qed.

Lemma Forall2_map_r {A B : Type} (g : A -> B) (P : A -> B -> Prop)
    (l : list A) :
  (forall a, P a (g a)) -> Forall2 P l (map g l).
Proof. intros H. induction l; simpl; constructor; auto. Qed.

(** C6, amended. At every stage, on whatever text mask and decoded stream,
    every coordinate of the box is the sigmoid of its pre-activation value:
    a finite value of [0,1] for every pre-activation value that is not NaN,
    the infinite ones included, and NaN for NaN. The reference point after
    the update is the first two coordinates of the box. So, if no
    pre-activation value is NaN, all coordinates of the box and of the
    reference point lie in [0,1]; and the reference point has two
    coordinates where the box has four. *)
Theorem box_in_unit_range_unless_nan
    (bbox_embed : list (list Special.fval) -> list (list Special.fval))
    (text_mask : list (list bool)) (x : list (list (list Special.fval))) :
  let pre := bbox_embed (Special.masked_pool text_mask x) in
  let box := fst (Special.prediction_head bbox_embed text_mask x) in
  let ref := snd (Special.prediction_head bbox_embed text_mask x) in
  Forall2 (Forall2 (fun p c =>
                      c = Special.sigmoid p /\
                      (p <> Special.NaN -> Special.in_unit c) /\
                      (p = Special.NaN -> c = Special.NaN)))
          pre box /\
  ref = map (firstn 2) box /\
  (Forall (Forall (fun p => p <> Special.NaN)) pre ->
   Forall (Forall Special.in_unit) box /\
   Forall (Forall Special.in_unit) ref) /\
  (Forall (fun row => length row = 4) box ->
   Forall (fun row => length row = 2) ref).
Proof.
  cbv zeta. unfold Special.prediction_head. cbv zeta. cbn [fst snd].
  set (pre := bbox_embed (Special.masked_pool text_mask x)).
  split; [|split; [reflexivity|split]].
  - apply Forall2_map_r. intros row. apply Forall2_map_r. intros p.
    split; [reflexivity|]. split.
    + apply (proj2 (special_sigmoid_range p)).
    + intros ->. reflexivity.
  - intros Hpre.
    assert (Hbox : Forall (Forall Special.in_unit)
                          (map (map Special.sigmoid) pre)).
    { apply Forall_map. eapply Forall_impl; [|exact Hpre].
      intros row Hrow. apply Forall_map. eapply Forall_impl; [|exact Hrow].
      intros p Hp. now apply (proj2 (special_sigmoid_range p)). }
    split; [exact Hbox | now apply special_slice_range].
  - intros Hfour. apply Forall_map. eapply Forall_impl; [|exact Hfour].
    intros row Hrow. unfold Tensor.slice_to. rewrite length_firstn, Hrow.
    reflexivity.
Qed.

(** C6, amended, on an item with one valid text token, with a finite, a
    positive infinite and a negative infinite pre-activation value. *)
Lemma box_in_unit_range_unless_nan_witness :
  Forall (Forall Special.in_unit)
    (fst (Special.prediction_head
            (fun v => map (fun row => [hd (Special.Num 0) row; Special.PInf;
                                       Special.NInf; Special.Num 0]) v)
            [[false]] [[[Special.Num 5]]])) /\
  Forall (Forall Special.in_unit)
    (snd (Special.prediction_head
            (fun v => map (fun row => [hd (Special.Num 0) row; Special.PInf;
                                       Special.NInf; Special.Num 0]) v)
            [[false]] [[[Special.Num 5]]])).
Proof.
  refine (proj1 (proj2 (proj2
            (@box_in_unit_range_unless_nan
               (fun v => map (fun row => [hd (Special.Num 0) row; Special.PInf;
                                          Special.NInf; Special.Num 0]) v)
               [[false]] [[[Special.Num 5]]]))) _).
  unfold Special.masked_pool, Special.text_select, Special.text_select_num,
    Special.weigh, Special.sum_rows, Special.vadd, Special.fsum,
    Special.fsub, Tensor.permute102, Tensor.size1, Tensor.b2r.
  cbn [map combine hd length seq nth fold_right repeat
       Special.fmul Special.fadd Special.fneg Special.fdiv].
  destruct (Req_EM_T _ _) as [H | _]; [exfalso; lra|].
  repeat constructor; discriminate.
Defined.

(** *** Agreement of the two models of the pooling

    On a finite decoded stream, and a text mask in which every batch item
    has a valid token, the pooling over special values returns the finite
    values that [masked_pool] computes over the real numbers. *)


Lemma special_text_select (text_mask : list (list bool)) :
  Special.text_select text_mask = map (map Special.Num) (text_select text_mask).
Proof.
  unfold Special.text_select, text_select. rewrite map_map.
  apply map_ext. intros mask_b. rewrite map_map. reflexivity.
Qed.










(** The parent model with another box head. *)
Definition with_bbox_embed (m : DynamicMDETR) (g : mat -> mat) : DynamicMDETR :=
  {| visumodel := visumodel m;
     visu_proj := visu_proj m;
     textmodel := textmodel m;
     text_proj := text_proj m;
     vl_pos_embed_weight := vl_pos_embed_weight m;
     vl_encoder := vl_encoder m;
     num_visu_token := num_visu_token m;
     init_sampling_feature_weight := init_sampling_feature_weight m;
     init_reference_point_weight := init_reference_point_weight m;
     stages := stages m;
     feautures_sampling := feautures_sampling m;
     different_transformer := different_transformer m;
     vl_transformer := vl_transformer m;
     bbox_embed := g;
     update_sampling_queries := update_sampling_queries m |}.

Lemma cat2_dim1_nth_error {A : Type} (a b : list (list A)) (k : nat)
    (p q : list A) :
  nth_error a k = Some p -> nth_error b k = Some q ->
  nth_error (Tensor.cat2_dim1 a b) k = Some (p ++ q).
Proof.
  intros Ha Hb. unfold Tensor.cat2_dim1.
  now rewrite (nth_error_map_combine _ a b k Ha Hb).
Qed.

(** C7. After a stage, the reference point of every batch item is the
    (center_x, center_y) pair of the box of that stage, the sampling query is
    the projection of this stage applied to the pooled vector concatenated
    with the previous query, and neither they nor the text stream depend on
    what the box head puts in the width and height. *)
Theorem stage_state_update (m : DynamicMDETR) (f : fused)
    (text_mask : list (list bool)) (i : nat) (st : dec_state) :
  let pooled := masked_pool text_mask (decode m f text_mask i st) in
  let st' := stage m f text_mask i st in
  pred_box st' = Some (box_head m pooled) /\
  reference_point st' = map (firstn 2) (box_head m pooled) /\
  (forall (b : nat) (cx cy w h : R),
      nth_error (box_head m pooled) b = Some [cx; cy; w; h] ->
      nth_error (reference_point st') b = Some [cx; cy]) /\
  sampling_query st'
    = update_sampling_queries m i (Tensor.cat2_dim1 pooled (sampling_query st)) /\
  (forall (b : nat) (p q : vec),
      nth_error pooled b = Some p ->
      nth_error (sampling_query st) b = Some q ->
      nth_error (Tensor.cat2_dim1 pooled (sampling_query st)) b = Some (p ++ q)) /\
  (forall g : mat -> mat,
      (forall v, map (firstn 2) (g v) = map (firstn 2) (bbox_embed m v)) ->
      let st'' := stage (with_bbox_embed m g) f text_mask i st in
      reference_point st'' = reference_point st' /\
      sampling_query st'' = sampling_query st' /\
      language_feat st'' = language_feat st').
Proof.
  cbv zeta. unfold stage.
  cbn [reference_point sampling_query language_feat pred_box].
  change (decode (with_bbox_embed m ?g) f text_mask i st)
    with (decode m f text_mask i st).
  set (pooled := masked_pool text_mask (decode m f text_mask i st)).
  unfold Tensor.slice_to.
  split; [reflexivity|]. split; [reflexivity|]. split; [|split; [reflexivity|split]].
  - intros b cx cy w h Hbox. exact (map_nth_error (firstn 2) _ _ Hbox).
  - intros b p q. apply cat2_dim1_nth_error.
  - intros g Hg.
    change (decode (with_bbox_embed m g) f text_mask i st)
      with (decode m f text_mask i st).
    fold pooled. split; [|split; reflexivity].
    unfold box_head. cbn [bbox_embed with_bbox_embed].
    assert (Hcomm : forall l : mat,
               map (firstn 2) (map (map Tensor.sigmoid) l)
               = map (map Tensor.sigmoid) (map (firstn 2) l)).
    { intros l. rewrite !map_map. apply map_ext. intros row.
      apply firstn_map. }
    now rewrite !Hcomm, Hg.
Qed.

(** ** The result of [forward] *)

Lemma zeros_length (n k : nat) : length (Tensor.zeros n k) = n.
Proof. unfold Tensor.zeros. apply repeat_length. Qed.

(** The tokens concatenate when they have one shape, and the masks when
    there are as many prompts as rows in the visual mask and in the text
    mask. *)
Lemma fuse_and_split_ok (m : DynamicMDETR) (bs C : nat) (prompts : mat)
    (visu_mask text_mask : list (list bool)) (visu_src text_src : tensor3) :
  Forall (fun row => length row = C) prompts ->
  Forall (token_shape bs C) visu_src ->
  Forall (token_shape bs C) text_src ->
  length prompts = length visu_mask ->
  length visu_mask = length text_mask ->
  exists f,
    fuse_and_split m bs prompts visu_mask visu_src text_mask text_src = Ok f.
Proof.
  intros Hp Hv Ht HP HB. unfold fuse_and_split.
  rewrite (@cat_dim0_shapes bs C).
  2: { simpl. rewrite app_nil_r.
       repeat (apply Forall_app; split); auto using unsqueeze1_repeat_shape. }
  cbn [bind]. unfold Tensor.cat_dim1, bind.
  rewrite !length_map, HB, Nat.eqb_refl.
  rewrite length_map, length_combine, !length_map, HB, Nat.min_id.
  unfold Tensor.size0.
  rewrite zeros_length, unsqueeze1_repeat_length, HP, HB, Nat.eqb_refl.
  eexists. reflexivity.
Qed.

Lemma fuse_and_split_mismatch (m : DynamicMDETR) (bs : nat) (prompts : mat)
    (visu_mask text_mask : list (list bool)) (visu_src text_src : tensor3) :
  length visu_mask = length text_mask ->
  length prompts <> length visu_mask ->
  fuse_and_split m bs prompts visu_mask visu_src text_mask text_src
  = Raise RuntimeError.
Proof.
  intros HB HP. unfold fuse_and_split.
  destruct (Tensor.cat_dim0 _) as [vl_src | e] eqn:Hcat; cbn [bind].
  - unfold Tensor.cat_dim1, bind.
    rewrite !length_map, HB, Nat.eqb_refl.
    rewrite length_map, length_combine, !length_map, HB, Nat.min_id.
    unfold Tensor.size0.
    rewrite zeros_length, unsqueeze1_repeat_length.
    rewrite <- HB. apply Nat.eqb_neq in HP. now rewrite HP.
  - apply cat_dim0_raises in Hcat. now subst e.
Qed.

(** What the prediction head of a stage relies on, for the decoded text
    stream [x] and the sampling query the stage starts from: [x] has one
    token per text position, every token one row per batch item, all rows
    one width; the query has one row per batch item; every batch item has a
    valid text token. Where this holds, lines 131 to 141 neither raise nor
    broadcast nor divide by zero, and the pairings of [masked_pool] and of
    [Tensor.cat2_dim1] lose nothing. *)
Definition prediction_head_defined (text_mask : list (list bool))
    (x : tensor3) (query : mat) : Prop :=
  x <> [] /\
  Forall (fun mask_b => length mask_b = length x /\ 0 < count_valid mask_b)
         text_mask /\
  (exists C, Forall (token_shape (length text_mask) C) x) /\
  length query = length text_mask.

(** What [forward] returns once the tokens and the masks concatenate. *)
Lemma forward_result (self : DynamicFSMDETR)
    (img_data : NestedTensor image) (text_data : NestedTensor (list Z))
    (visu_mask text_mask : list (list bool)) (visu_src pos : tensor3)
    (prompts : mat) (C : nat) :
  visumodel (super self) (VisuNested img_data)
    = (VisuPair visu_mask visu_src, pos) ->
  mask (textmodel (super self) text_data) = Some text_mask ->
  visual_prompts self = Some prompts ->
  Forall (fun row => length row = C) prompts ->
  Forall (token_shape (Tensor.size0 (tensors img_data)) C)
         (visu_proj (super self) visu_src) ->
  Forall (token_shape (Tensor.size0 (tensors img_data)) C)
         (Tensor.permute102
            (text_proj (super self)
                       (tensors (textmodel (super self) text_data)))) ->
  length prompts = length visu_mask ->
  length visu_mask = length text_mask ->
  let m := super self in
  let bs := Tensor.size0 (tensors img_data) in
  exists f,
    fuse_and_split m bs prompts visu_mask (visu_proj m visu_src) text_mask
      (Tensor.permute102 (text_proj m (tensors (textmodel m text_data)))) = Ok f /\
    forward self img_data text_data
    = Ok match stages m with
         | 0 => None
         | S k =>
             Some (box_head m
                     (masked_pool text_mask
                        (decode m f text_mask k
                           (decoder_loop m f text_mask k (initial_state m bs f)))))
         end.
Proof.
  intros Hvisu Hmask Hbank Hp Hv Ht HP HB. cbv zeta.
  destruct (@fuse_and_split_ok (super self) (Tensor.size0 (tensors img_data)) C
              prompts visu_mask text_mask
              (visu_proj (super self) visu_src)
              (Tensor.permute102
                 (text_proj (super self)
                            (tensors (textmodel (super self) text_data))))
              Hp Hv Ht HP HB) as [f Hf].
  exists f. split; [exact Hf|].
  unfold forward. rewrite Hvisu. cbn [fst bind].
  rewrite Hmask. cbn [bind]. rewrite Hbank. cbn [bind].
  rewrite Hf. cbn [bind]. f_equal.
  destruct (stages (super self)) as [| k]; [reflexivity|].
  now rewrite decoder_loop_S.
Qed.

(** C10. Take a model whose bank is set, whose bank rows, visual tokens and
    text tokens have one channel width and one row per image of the batch
    (line 94), with as many prompts as batch rows in the masks (line 95),
    and on which every stage that runs finds the shapes and the valid text
    token its prediction head relies on. Then [forward] returns: with no
    stage it returns [None], and with [k + 1] stages the box that stage [k]
    computes from the state the first [k] stages leave, the boxes of those
    stages not being part of the result. *)
Theorem forward_returns_last_box (self : DynamicFSMDETR)
    (img_data : NestedTensor image) (text_data : NestedTensor (list Z))
    (visu_mask text_mask : list (list bool)) (visu_src pos : tensor3)
    (prompts : mat) (C : nat) :
  visumodel (super self) (VisuNested img_data)
    = (VisuPair visu_mask visu_src, pos) ->
  mask (textmodel (super self) text_data) = Some text_mask ->
  visual_prompts self = Some prompts ->
  Forall (fun row => length row = C) prompts ->
  Forall (token_shape (Tensor.size0 (tensors img_data)) C)
         (visu_proj (super self) visu_src) ->
  Forall (token_shape (Tensor.size0 (tensors img_data)) C)
         (Tensor.permute102
            (text_proj (super self)
                       (tensors (textmodel (super self) text_data)))) ->
  length prompts = length visu_mask ->
  length visu_mask = length text_mask ->
  (forall (f : fused) (i : nat),
      fuse_and_split (super self) (Tensor.size0 (tensors img_data)) prompts
        visu_mask (visu_proj (super self) visu_src) text_mask
        (Tensor.permute102
           (text_proj (super self)
                      (tensors (textmodel (super self) text_data)))) = Ok f ->
      i < stages (super self) ->
      prediction_head_defined text_mask
        (decode (super self) f text_mask i
           (decoder_loop (super self) f text_mask i
              (initial_state (super self) (Tensor.size0 (tensors img_data)) f)))
        (sampling_query
           (decoder_loop (super self) f text_mask i
              (initial_state (super self) (Tensor.size0 (tensors img_data)) f)))) ->
  let m := super self in
  let bs := Tensor.size0 (tensors img_data) in
  exists f,
    fuse_and_split m bs prompts visu_mask (visu_proj m visu_src) text_mask
      (Tensor.permute102 (text_proj m (tensors (textmodel m text_data)))) = Ok f /\
    forward self img_data text_data
    = Ok match stages m with
         | 0 => None
         | S k =>
             Some (box_head m
                     (masked_pool text_mask
                        (decode m f text_mask k
                           (decoder_loop m f text_mask k (initial_state m bs f)))))
         end.
Proof.
  intros Hvisu Hmask Hbank Hp Hv Ht HP HB _.
  exact (forward_result self img_data text_data Hvisu Hmask Hbank Hp Hv Ht HP HB).
Qed.

(** The shapes of the small model with its one-prompt bank, and what the
    fusion returns on it. *)
Lemma toy_token_shapes :
  Forall (fun row : vec => length row = 1) [[9%R]] /\
  Forall (token_shape 1 1) [[[1%R]]; [[2%R]]] /\
  Forall (token_shape 1 1) [[[IZR 7]]].
Proof. repeat constructor. Qed.

Lemma toy_prediction_head_defined (n : nat) (f : fused) (i : nat) :
  fuse_and_split (Toy.model n) 1 [[9%R]] [[false; false]]
                 [[[1%R]]; [[2%R]]] [[false]] [[[IZR 7]]] = Ok f ->
  prediction_head_defined [[false]]
    (decode (Toy.model n) f [[false]] i
       (decoder_loop (Toy.model n) f [[false]] i
          (initial_state (Toy.model n) 1 f)))
    (sampling_query
       (decoder_loop (Toy.model n) f [[false]] i
          (initial_state (Toy.model n) 1 f))).
Proof.
  intros Hf.
  assert (E : fuse_and_split (Toy.model n) 1 [[9%R]] [[false; false]]
                [[[1%R]]; [[2%R]]] [[false]] [[[IZR 7]]]
              = Ok {| visu_feat := [[[9%R]]; [[1%R]]];
                      fused_language_feat := [[[IZR 7]]];
                      v_pos := [[[0%R]]; [[0%R]]];
                      l_pos := [[[0%R]]] |}) by reflexivity.
  rewrite E in Hf. injection Hf as <-. clear E.
  assert (Hinv : forall i,
             let st := decoder_loop (Toy.model n)
                         {| visu_feat := [[[9%R]]; [[1%R]]];
                            fused_language_feat := [[[IZR 7]]];
                            v_pos := [[[0%R]]; [[0%R]]];
                            l_pos := [[[0%R]]] |} [[false]] i
                         (initial_state (Toy.model n) 1
                            {| visu_feat := [[[9%R]]; [[1%R]]];
                               fused_language_feat := [[[IZR 7]]];
                               v_pos := [[[0%R]]; [[0%R]]];
                               l_pos := [[[0%R]]] |}) in
             language_feat st = [[[IZR 7]]] /\ length (sampling_query st) = 1).
  { intros j. induction j as [| j IH].
    - split; reflexivity.
    - cbv zeta in *. rewrite decoder_loop_S. destruct IH as [IH1 IH2].
      unfold stage. cbn [language_feat sampling_query].
      unfold decode. cbn [Toy.model feautures_sampling vl_transformer
                          different_transformer update_sampling_queries hd].
      rewrite IH1. split; [reflexivity|].
      rewrite length_map. unfold Tensor.cat2_dim1.
      rewrite length_map, length_combine.
      transitivity (Nat.min 1 1); [|reflexivity].
      f_equal. exact IH2. }
  destruct (Hinv i) as [Hlang Hq]. cbv zeta in *.
  unfold decode. cbn [Toy.model feautures_sampling vl_transformer
                      different_transformer hd].
  rewrite Hlang. unfold prediction_head_defined.
  split; [discriminate|]. split; [|split].
  - repeat constructor.
  - exists 1. repeat constructor.
  - exact Hq.
Qed.

(** C10 on the small model: with no stage the result is [None], with two
    stages it is a box. *)
Lemma forward_returns_last_box_witness :
  forward (Toy.self 0) Toy.img_data Toy.text_data = Ok None /\
  exists box, forward (Toy.self 2) Toy.img_data Toy.text_data = Ok (Some box).
Proof.
  destruct toy_token_shapes as [Hp [Hv Ht]].
  split.
  - destruct (@forward_returns_last_box (Toy.self 0) Toy.img_data Toy.text_data
                [[false; false]] [[false]] [[[1%R]]; [[2%R]]] [] [[9%R]] 1
                eq_refl eq_refl eq_refl Hp Hv Ht eq_refl eq_refl
                (fun f i Hf _ => @toy_prediction_head_defined 0 f i Hf))
      as [f [_ H]].
    exact H.
  - destruct (@forward_returns_last_box (Toy.self 2) Toy.img_data Toy.text_data
                [[false; false]] [[false]] [[[1%R]]; [[2%R]]] [] [[9%R]] 1
                eq_refl eq_refl eq_refl Hp Hv Ht eq_refl eq_refl
                (fun f i Hf _ => @toy_prediction_head_defined 2 f i Hf))
      as [f [_ H]].
    eexists. exact H.
Defined.

(** ** Calling the model *)

(** C2. [forward(self, img_data, text_data)] takes two inputs. Called with
    the image batch, the text batch, the templates and the template labels,
    and called as the training loop, the evaluation and the inference do with
    six inputs, the model raises [TypeError] where the call is meant to
    return a box: the templates and their labels never reach [forward]. *)
Theorem module_call_four_inputs_raises :
  module_call (Toy.self 1)
    [PyImages Toy.img_data; PyText Toy.text_data;
     PyImageList [Toy.img_data]; PyLabels [0%Z]] = Raise TypeError /\
  module_call (Toy.self 1)
    [PyImages Toy.img_data; PyText Toy.text_data;
     PyImageList [Toy.img_data]; PyTextList [Toy.text_data];
     PyLabels [0%Z]; PyLabels [0%Z]] = Raise TypeError.
Proof. split; reflexivity. Qed.

(** ** The training loop: [train_one_epoch] *)

Module Engine.

Section TrainOneEpoch.

(** The model with its optimizer, a batch of the data loader, and the
    output of the model. [call] is [model(img_data, ...)];
    [loss_value] is [trans_vg_loss], [reduce_dict], the sum and [.item()];
    [optimizer_step] is [zero_grad], [backward], the gradient clipping and
    [optimizer.step()]. Logging and printing are left out. *)
Variables (model batch output : Type).
Variable call : model -> batch -> result output.
Variable loss_value : output -> batch -> PrimFloat.float.
Variable optimizer_step : model -> output -> batch -> model.

Record state : Type := {
  weights : model;
  iter : nat;
  logged : list PrimFloat.float
}.

Inductive outcome : Type :=
| Returned (st : state)
| Raised (e : exn) (st : state).

(** [math.isfinite] *)
Definition isfinite (x : PrimFloat.float) : bool := PrimFloat.is_finite x.

(** The body of the [for] loop on one batch, when the loss is finite. *)
Definition update (st : state) (out : output) (b : batch) : state :=
  {| weights := optimizer_step (weights st) out b;
     iter := iter st + 1;
     logged := logged st ++ [loss_value out b] |}.

Fixpoint data_loop (st : state) (data_loader : list batch) : outcome :=
  match data_loader with
  | [] => Returned st
  | b :: rest =>
      match call (weights st) b with
      | Raise e => Raised e st
      | Ok out =>
          if negb (isfinite (loss_value out b))
          then Raised (SystemExit 1) st
          else data_loop (update st out b) rest
      end
  end.

Definition train_one_epoch (m : model) (data_loader : list batch)
    (epoch : nat) : outcome :=
  data_loop {| weights := m;
               iter := epoch * length data_loader;
               logged := [] |}
            data_loader.

Lemma data_loop_app (st st' : state) (pre rest : list batch) :
  data_loop st pre = Returned st' ->
  data_loop st (pre ++ rest) = data_loop st' rest.
Proof.
  revert st. induction pre as [| b pre IH]; intros st; simpl.
  - intros H. now inversion H.
  - destruct (call (weights st) b) as [out | e]; [|discriminate].
    destruct (negb (isfinite (loss_value out b))); [discriminate|].
    apply IH.
Qed.

(** C9. When the loss of a batch is not finite, the epoch ends there with
    [sys.exit(1)], in the state the batches before it left: no optimizer
    step is taken for this batch and no later batch is processed. A batch
    with a finite loss is followed by the optimizer step and the rest of the
    loader, and an epoch whose losses are all finite returns after one step
    per batch. *)
Theorem nonfinite_loss_aborts :
  (forall (st st' : state) (pre rest : list batch) (b : batch) (out : output),
      data_loop st pre = Returned st' ->
      call (weights st') b = Ok out ->
      isfinite (loss_value out b) = false ->
      data_loop st (pre ++ b :: rest) = Raised (SystemExit 1) st') /\
  (forall (st : state) (rest : list batch) (b : batch) (out : output),
      call (weights st) b = Ok out ->
      isfinite (loss_value out b) = true ->
      data_loop st (b :: rest) = data_loop (update st out b) rest) /\
  (forall (st : state) (data_loader : list batch),
      (forall m b, exists out,
            call m b = Ok out /\ isfinite (loss_value out b) = true) ->
      exists st',
        data_loop st data_loader = Returned st' /\
        iter st' = iter st + length data_loader /\
        length (logged st') = length (logged st) + length data_loader).
Proof.
  split; [|split].
  - intros st st' pre rest b out Hpre Hcall Hloss.
    erewrite data_loop_app by eassumption. simpl. now rewrite Hcall, Hloss.
  - intros st rest b out Hcall Hloss. simpl. now rewrite Hcall, Hloss.
  - intros st data_loader Hfinite. revert st.
    induction data_loader as [| b rest IH]; intros st; simpl.
    + exists st. repeat split; lia.
    + destruct (Hfinite (weights st) b) as [out [Hcall Hloss]].
      rewrite Hcall, Hloss. simpl.
      destruct (IH (update st out b)) as [st' [Hrun [Hiter Hlog]]].
      exists st'. split; [exact Hrun|].
      rewrite Hiter, Hlog. simpl. rewrite length_app. simpl. lia.
Qed.

End TrainOneEpoch.

(** C9 on three batches whose losses are 1, infinity and 2, with a model
    that counts its optimizer steps: the epoch exits at the second batch,
    after one step. *)
Lemma nonfinite_loss_aborts_witness :
  train_one_epoch (fun (_ : nat) (b : PrimFloat.float) => Ok b)
                  (fun out _ => out) (fun m _ _ => S m)
                  0 [PrimFloat.one; PrimFloat.infinity; PrimFloat.two] 0
  = Raised (SystemExit 1)
           {| weights := 1; iter := 1; logged := [PrimFloat.one] |}.
Proof.
  exact (proj1 (@nonfinite_loss_aborts nat PrimFloat.float PrimFloat.float
                  (fun (_ : nat) (b : PrimFloat.float) => Ok b)
                  (fun out _ => out) (fun m _ _ => S m))
               {| weights := 0; iter := 0; logged := [] |}
               {| weights := 1; iter := 1; logged := [PrimFloat.one] |}
               [PrimFloat.one] [PrimFloat.two] PrimFloat.infinity
               PrimFloat.infinity eq_refl eq_refl eq_refl).
Defined.

End Engine.

(** ** The prompt bank *)

Section VisitOrder.

(** The order in which the prompt constructor visits the templates: label
    by label in ascending order, and by position under one label. *)
Definition visit_order (template_labels : list Z) : list nat :=
  concat (map (nonzero_eq template_labels) (unique template_labels)).

Definition label_then_index (template_labels : list Z) (i j : nat) : Prop :=
  (nth i template_labels 0 < nth j template_labels 0)%Z \/
  (nth i template_labels 0%Z = nth j template_labels 0%Z /\ i < j).

Lemma insert_unique_in (x y : Z) (l : list Z) :
  In y (insert_unique x l) <-> y = x \/ In y l.
Proof.
  induction l as [| z l IH]; simpl.
  - intuition.
  - destruct (x <? z)%Z eqn:Hlt; simpl; [intuition|].
    destruct (x =? z)%Z eqn:Heq; simpl.
    + apply Z.eqb_eq in Heq. subst. intuition.
    + rewrite IH. intuition.
Qed.

Lemma insert_unique_sorted (x : Z) (l : list Z) :
  StronglySorted Z.lt l -> StronglySorted Z.lt (insert_unique x l).
Proof.
  induction l as [| z l IH]; simpl; intros Hs.
  - repeat constructor.
  - inversion Hs as [| ? ? Hl Hz]; subst.
    destruct (x <? z)%Z eqn:Hlt.
    + apply Z.ltb_lt in Hlt. constructor; [exact Hs|].
      constructor; [exact Hlt|].
      eapply Forall_impl; [|exact Hz]. intros a Ha. lia.
    + destruct (x =? z)%Z eqn:Heq; [exact Hs|].
      apply Z.ltb_ge in Hlt. apply Z.eqb_neq in Heq.
      constructor; [now apply IH|].
      apply Forall_forall. intros y Hy. apply insert_unique_in in Hy.
      destruct Hy as [-> | Hy]; [lia|].
      rewrite Forall_forall in Hz. now apply Hz.
Qed.

Lemma unique_in (labels : list Z) (x : Z) :
  In x (unique labels) <-> In x labels.
Proof.
  unfold unique. induction labels as [| y labels IH]; simpl; [tauto|].
  rewrite insert_unique_in, IH. intuition.
Qed.

Lemma unique_sorted (labels : list Z) : StronglySorted Z.lt (unique labels).
Proof.
  unfold unique. induction labels as [| y labels IH]; simpl.
  - constructor.
  - now apply insert_unique_sorted.
Qed.

(** The indices selected for one label, counted from [a]. *)
Lemma nonzero_from_in (label : Z) (labels : list Z) (a i : nat) :
  In i (map fst (filter (fun '(_, l) => (l =? label)%Z)
                        (combine (seq a (length labels)) labels)))
  <-> a <= i /\ nth_error labels (i - a) = Some label.
Proof.
  revert a. induction labels as [| x labels IH]; intros a; simpl.
  - split; [tauto|]. intros [_ H]. destruct (i - a); discriminate.
  - assert (Hrest :
      In i (map fst (filter (fun '(_, l) => (l =? label)%Z)
                            (combine (seq (S a) (length labels)) labels)))
      <-> a <= i /\ i <> a /\ nth_error (x :: labels) (i - a) = Some label).
    { rewrite IH. split.
      - intros [Hle Hn]. split; [lia|]. split; [lia|].
        replace (i - a) with (S (i - S a)) by lia. exact Hn.
      - intros [Hle [Hne Hn]]. split; [lia|].
        replace (i - a) with (S (i - S a)) in Hn by lia. exact Hn. }
    destruct (x =? label)%Z eqn:Hx; simpl; rewrite Hrest.
    + apply Z.eqb_eq in Hx. subst x. split.
      * intros [<- | H]; [|tauto]. split; [lia|]. now rewrite Nat.sub_diag.
      * intros [Hle Hn]. destruct (Nat.eq_dec a i); [now left | right; auto].
    + apply Z.eqb_neq in Hx. split; [tauto|].
      intros [Hle Hn]. split; [exact Hle|]. split; [|exact Hn].
      intros ->. rewrite Nat.sub_diag in Hn. simpl in Hn. congruence.
Qed.

Lemma nonzero_from_sorted (label : Z) (labels : list Z) (a : nat) :
  StronglySorted lt
    (map fst (filter (fun '(_, l) => (l =? label)%Z)
                     (combine (seq a (length labels)) labels))).
Proof.
  revert a. induction labels as [| x labels IH]; intros a; simpl.
  - constructor.
  - destruct (x =? label)%Z; simpl; [|apply IH].
    constructor; [apply IH|].
    apply Forall_forall. intros i Hi. apply nonzero_from_in in Hi. lia.
Qed.

Lemma nonzero_eq_in (labels : list Z) (label : Z) (i : nat) :
  In i (nonzero_eq labels label) <-> nth_error labels i = Some label.
Proof.
  unfold nonzero_eq. rewrite nonzero_from_in, Nat.sub_0_r.
  split; [tauto | intros; split; [lia | assumption]].
Qed.

Lemma nonzero_eq_sorted (labels : list Z) (label : Z) :
  StronglySorted lt (nonzero_eq labels label).
Proof. apply nonzero_from_sorted. Qed.

Lemma StronglySorted_app {A : Type} (R : A -> A -> Prop) (l1 l2 : list A) :
  StronglySorted R l1 -> StronglySorted R l2 ->
  (forall x y, In x l1 -> In y l2 -> R x y) ->
  StronglySorted R (l1 ++ l2).
Proof.
  induction l1 as [| a l1 IH]; simpl; intros H1 H2 Hx; [exact H2|].
  inversion H1 as [| ? ? Hs Ha]; subst. constructor.
  - apply IH; auto.
  - apply Forall_app. split; [exact Ha|].
    apply Forall_forall. intros y Hy. apply Hx; auto.
Qed.

Lemma StronglySorted_weaken {A : Type} (R R' : A -> A -> Prop) (l : list A) :
  (forall x y, In x l -> In y l -> R x y -> R' x y) ->
  StronglySorted R l -> StronglySorted R' l.
Proof.
  induction l as [| a l IH]; intros Himp Hs; [constructor|].
  inversion Hs as [| ? ? Hl Ha]; subst. constructor.
  - apply IH; [|exact Hl]. intros x y Hx Hy. apply Himp; now right.
  - rewrite Forall_forall in *. intros y Hy.
    apply Himp; [now left | now right | now apply Ha].
Qed.

Lemma StronglySorted_NoDup {A : Type} (R : A -> A -> Prop) (l : list A) :
  (forall x, ~ R x x) -> StronglySorted R l -> NoDup l.
Proof.
  intros Hirr. induction 1 as [| a l Hs IH Ha]; constructor; [|exact IH].
  intros Hin. rewrite Forall_forall in Ha. exact (Hirr a (Ha a Hin)).
Qed.

Lemma groups_sorted (labels U : list Z) :
  StronglySorted Z.lt U ->
  StronglySorted (label_then_index labels)
                 (concat (map (nonzero_eq labels) U)).
Proof.
  induction 1 as [| u U HU IH Hu]; simpl; [constructor|].
  apply StronglySorted_app.
  - apply StronglySorted_weaken with (R := lt); [|apply nonzero_eq_sorted].
    intros x y Hx Hy Hlt. right. split; [|exact Hlt].
    apply nonzero_eq_in in Hx, Hy.
    now rewrite (nth_error_nth _ _ 0%Z Hx), (nth_error_nth _ _ 0%Z Hy).
  - exact IH.
  - intros x y Hx Hy. left.
    apply nonzero_eq_in in Hx. rewrite (nth_error_nth _ _ 0%Z Hx).
    apply in_concat in Hy. destruct Hy as [grp [Hgrp Hy]].
    apply in_map_iff in Hgrp. destruct Hgrp as [u' [<- Hu']].
    apply nonzero_eq_in in Hy. rewrite (nth_error_nth _ _ 0%Z Hy).
    rewrite Forall_forall in Hu. now apply Hu.
Qed.

Lemma visit_order_in (labels : list Z) (i : nat) :
  In i (visit_order labels) <-> i < length labels.
Proof.
  unfold visit_order. rewrite in_concat. split.
  - intros [grp [Hgrp Hi]]. apply in_map_iff in Hgrp.
    destruct Hgrp as [u [<- _]]. apply nonzero_eq_in in Hi.
    apply nth_error_Some. congruence.
  - intros Hi. destruct (nth_error labels i) as [u |] eqn:Hu.
    + exists (nonzero_eq labels u). split.
      * apply in_map, unique_in. eapply nth_error_In; eauto.
      * now apply nonzero_eq_in.
    + apply nth_error_None in Hu. lia.
Qed.

Lemma visit_order_sorted (labels : list Z) :
  StronglySorted (label_then_index labels) (visit_order labels).
Proof. apply groups_sorted, unique_sorted. Qed.

Lemma visit_order_perm (labels : list Z) :
  Permutation (visit_order labels) (seq 0 (length labels)).
Proof.
  apply NoDup_Permutation.
  - apply StronglySorted_NoDup with (R := label_then_index labels);
      [|apply visit_order_sorted].
    intros x [H | [_ H]]; lia.
  - apply seq_NoDup.
  - intros i. rewrite visit_order_in, in_seq. lia.
Qed.

End VisitOrder.

Unset Implicit Arguments.

Section PromptBank.

Variable rng : Type.
Variable randint : Z -> Z -> rng -> Z * rng.
Variable gen : Type.
Variable normal_ : nat -> nat -> gen -> mat * gen.

(** [random.randint(a, b)] answers in the closed range, and [normal_] fills
    a tensor of the shape it is given. *)
Hypothesis randint_range :
  forall a b s, (a <= b)%Z -> (a <= fst (randint a b s) <= b)%Z.
Hypothesis normal_shape :
  forall n d g,
    length (fst (normal_ n d g)) = n /\
    Forall (fun row => length row = d) (fst (normal_ n d g)).

Variable m : DynamicMDETR.
Variable embeddings : mat.
Variable d : nat.

Hypothesis embeddings_rows : 0 < length embeddings.
Hypothesis embeddings_width : Forall (fun row => length row = d) embeddings.

(** What the loop body appends for a template: its pooled feature plus a
    row of the table. *)
Definition prompt_of (template : image) (p : vec) : Prop :=
  exists (v row : vec) (idx : nat),
    template_feature m d template = Ok v /\
    nth_error embeddings idx = Some row /\
    p = Tensor.vadd v row /\
    length p = d.

Lemma adaptive_avg_pool2d_view_length (x : tensor4) (v : vec) :
  Tensor.adaptive_avg_pool2d_view d x = Ok v -> length v = d.
Proof.
  unfold Tensor.adaptive_avg_pool2d_view.
  destruct (Nat.eqb _ d) eqn:E; [|discriminate].
  intros H. inversion H; subst. now apply Nat.eqb_eq.
Qed.

Lemma template_feature_length (t : image) (v : vec) :
  template_feature m d t = Ok v -> length v = d.
Proof.
  unfold template_feature.
  destruct (fst (visumodel m (VisuTensor [t]))); [discriminate|].
  apply adaptive_avg_pool2d_view_length.
Qed.

Lemma vadd_length (a b : vec) :
  length a = length b -> length (Tensor.vadd a b) = length a.
Proof.
  intros H. unfold Tensor.vadd. rewrite length_map, length_combine. lia.
Qed.

Lemma template_prompt_ok (t : image) (s : rng) :
  (exists v, template_feature m d t = Ok v) ->
  exists p s',
    template_prompt randint m embeddings d t s = Ok (p, s') /\ prompt_of t p.
Proof.
  intros [v Hv]. unfold template_prompt. rewrite Hv. cbn [bind].
  unfold py_randint, Tensor.size0.
  assert (Hle : (0 <= Z.of_nat (length embeddings) - 1)%Z) by lia.
  destruct (Z.leb_spec 0 (Z.of_nat (length embeddings) - 1)) as [_ | ?]; [|lia].
  cbn [bind].
  pose proof (randint_range 0 (Z.of_nat (length embeddings) - 1) s Hle) as Hr.
  destruct (randint 0 (Z.of_nat (length embeddings) - 1) s) as [idx s'].
  cbn [fst] in Hr. unfold PseudoEmbedding_forward.
  destruct (Z.ltb_spec idx 0) as [? | _]; [lia|].
  destruct (Z.ltb_spec idx 0) as [? | _]; [lia|].
  unfold Tensor.getitem.
  destruct (nth_error embeddings (Z.to_nat idx)) as [row |] eqn:Hrow.
  - cbn [bind]. unfold Tensor.add_broadcast.
    assert (Hrow_len : length row = d).
    { rewrite Forall_forall in embeddings_width. apply embeddings_width.
      eapply nth_error_In; eauto. }
    pose proof (template_feature_length t v Hv) as Hv_len.
    rewrite Hv_len, Hrow_len, Nat.eqb_refl. cbn [bind].
    exists (Tensor.vadd v row), s'. split; [reflexivity|].
    exists v, row, (Z.to_nat idx). repeat split; auto.
    rewrite vadd_length; congruence.
  - apply nth_error_None in Hrow. lia.
Qed.

Lemma label_prompts_ok (ts : list image) (s : rng) :
  (forall t, In t ts -> exists v, template_feature m d t = Ok v) ->
  exists ps s',
    label_prompts randint m embeddings d ts s = Ok (ps, s') /\
    Forall2 prompt_of ts ps.
Proof.
  revert s. induction ts as [| t ts IH]; intros s Hfeat; simpl.
  - exists [], s. split; [reflexivity | constructor].
  - destruct (template_prompt_ok t s (Hfeat t (or_introl eq_refl)))
      as [p [s1 [Hp Hprompt]]].
    rewrite Hp. cbn [bind].
    destruct (IH s1 (fun t' Ht' => Hfeat t' (or_intror Ht')))
      as [ps [s2 [Hps Hall]]].
    rewrite Hps. cbn [bind].
    exists (p :: ps), s2. split; [reflexivity | now constructor].
Qed.




Lemma Forall2_in_r {A B : Type} (P : A -> B -> Prop)
    (la : list A) (lb : list B) (b : B) :
  Forall2 P la lb -> In b lb -> exists a, In a la /\ P a b.
Proof.
  induction 1 as [| a0 b0 la lb H0 H IH]; simpl; [tauto|].
  intros [<- | Hin]; [eauto|].
  destruct (IH Hin) as [a [Ha HP]]. eauto.
Qed.


End PromptBank.


Section PromptBankOrder.

Variable rng : Type.
Variable randint : Z -> Z -> rng -> Z * rng.
Variable gen : Type.
Variable normal_ : nat -> nat -> gen -> mat * gen.

Hypothesis randint_range :
  forall a b s, (a <= b)%Z -> (a <= fst (randint a b s) <= b)%Z.
Hypothesis normal_shape :
  forall n d g,
    length (fst (normal_ n d g)) = n /\
    Forall (fun row => length row = d) (fst (normal_ n d g)).


End PromptBankOrder.

(** Concrete random sources for the runs below: a counter for Python's
    [random], and a generator whose draws repeat with period 2. *)
Module ToyRandom.

Definition randint (a b : Z) (s : nat) : Z * nat :=
  ((a + Z.of_nat s mod (b - a + 1))%Z, S s).

Definition normal_ (n d : nat) (g : nat) : mat * nat :=
  (repeat (repeat (INR (g mod 2)) d) n, S g).

Lemma randint_range (a b : Z) (s : nat) :
  (a <= b)%Z -> (a <= fst (randint a b s) <= b)%Z.
Proof.
  intros Hab. unfold randint. cbn [fst].
  pose proof (Z.mod_pos_bound (Z.of_nat s) (b - a + 1)). lia.
Qed.

Lemma normal_shape (n d : nat) (g : nat) :
  length (fst (normal_ n d g)) = n /\
  Forall (fun row => length row = d) (fst (normal_ n d g)).
Proof.
  unfold normal_. cbn [fst]. split; [apply repeat_length|].
  apply Forall_forall. intros row Hrow. apply repeat_spec in Hrow. subst.
  apply repeat_length.
Qed.

(** Three one-plane templates. *)
Definition templates : list image := [[[[2%R]]]; [[[4%R]]]; [[[6%R]]]].

End ToyRandom.


(** ** Two runs on the same inputs *)

Section Determinism.

Variable rng : Type.
Variable randint : Z -> Z -> rng -> Z * rng.
Variable gen : Type.
Variable normal_ : nat -> nat -> gen -> mat * gen.

(** Prompt construction followed by [forward]. *)
Definition prompts_then_forward (self : DynamicFSMDETR) (s : rng) (g : gen)
    (templates : list image) (template_labels : list Z) (hidden_dim_arg : nat)
    (img_data : NestedTensor image) (text_data : NestedTensor (list Z))
    : result (option mat) :=
  (st <- _get_visual_prompts randint normal_ self s g templates template_labels
                             hidden_dim_arg ;;
   forward (fst (fst st)) img_data text_data)%py.

End Determinism.

(** A model through whose fusion encoder every token sees the first token
    of the sequence, as attention lets it: the encoder adds the first token
    to each token. Everything else is the small model with one stage; the
    model object holds neither table nor bank yet. *)
Module ToyMixing.

Definition encoder (src : tensor3) (_ : mat) (_ : tensor3) : tensor3 :=
  map (fun tok =>
         map (fun '(row, first) => Tensor.vadd row first)
             (combine tok (hd [] src)))
      src.

Definition model : DynamicMDETR :=
  {| visumodel := Toy.backbone;
     visu_proj := fun x => x;
     textmodel := Toy.bert;
     text_proj := fun x => x;
     vl_pos_embed_weight := [[0%R]; [0%R]; [0%R]];
     vl_encoder := Some encoder;
     num_visu_token := 2;
     init_sampling_feature_weight := [[0%R]];
     init_reference_point_weight := [[0%R; 0%R]];
     stages := 1;
     feautures_sampling := fun _ _ v p _ => (v, p);
     different_transformer := false;
     vl_transformer := fun _ _ lang _ _ _ => [lang];
     bbox_embed := map (fun row => [hd 0%R row; 0%R; 0%R; 0%R]);
     update_sampling_queries := fun _ => map (firstn 1) |}.

Definition self : DynamicFSMDETR :=
  {| super := model;
     pseudo_num_classes := 2;
     hidden_dim := 1;
     named_parameters := [];
     pseudo_embedding := None;
     visual_prompts := None |}.

End ToyMixing.

Lemma sigmoid_inj (a b : R) : Tensor.sigmoid a = Tensor.sigmoid b -> a = b.
Proof.
  unfold Tensor.sigmoid, Rdiv. rewrite !Rmult_1_l. intros H.
  apply (f_equal Rinv) in H. rewrite !Rinv_inv in H.
  assert (E : exp (- a) = exp (- b)) by lra.
  apply exp_inv in E. lra.
Qed.

(** C8. Two runs of prompt construction followed by [forward], on one model
    object with the same weights, from the same state of Python's [random],
    on the same template, label, image and text, return different boxes when
    torch's default generator is in different states: line 40 draws a new
    embedding table from it at every prompt construction, and the state of
    [random] does not govern it. The first prompt construction itself leaves
    the generator in the state from which the second run draws. *)
Theorem prompts_then_forward_redraws_table :
  (exists self',
      _get_visual_prompts ToyRandom.randint ToyRandom.normal_ ToyMixing.self
        0 0 [[[[2%R]]]] [5%Z] 1 = Ok (self', 1, 1)) /\
  prompts_then_forward nat ToyRandom.randint nat ToyRandom.normal_
    ToyMixing.self 0 0 [[[[2%R]]]] [5%Z] 1 Toy.img_data Toy.text_data
  = Ok (Some [[Tensor.sigmoid 9; Tensor.sigmoid 0;
               Tensor.sigmoid 0; Tensor.sigmoid 0]]) /\
  prompts_then_forward nat ToyRandom.randint nat ToyRandom.normal_
    ToyMixing.self 0 1 [[[[2%R]]]] [5%Z] 1 Toy.img_data Toy.text_data
  = Ok (Some [[Tensor.sigmoid 10; Tensor.sigmoid 0;
               Tensor.sigmoid 0; Tensor.sigmoid 0]]) /\
  Tensor.sigmoid 9 <> Tensor.sigmoid 10.
Proof.
  split; [eexists; reflexivity|].
  split; [|split].
  - cbn.
    match goal with
    | |- context [Tensor.sigmoid (?a / ?b)] => replace (a / b)%R with 9%R
    end; [reflexivity|].
    unfold Tensor.plane_mean. cbn. field.
  - cbn.
    match goal with
    | |- context [Tensor.sigmoid (?a / ?b)] => replace (a / b)%R with 10%R
    end; [reflexivity|].
    unfold Tensor.plane_mean. cbn. field.
  - intros H. apply sigmoid_inj in H. lra.
Qed.

(** * Further properties of the code *)

(** ** The adaptation policy and the parameter list *)

Section PolicyProperties.

Local Open Scope string_scope.

Lemma prefix_app (p s : string) :
  String.prefix p s = true <-> exists post, s = p ++ post.
Proof.
  revert s. induction p as [| a p IH]; intros s.
  - split; [intros _; now exists s | intros _; now destruct s].
  - destruct s as [| b s]; simpl.
    + split; [discriminate | intros [post H]; discriminate].
    + destruct (Ascii.ascii_dec a b) as [-> | Hab].
      * rewrite IH. split; intros [post H]; exists post.
        -- now rewrite H.
        -- now inversion H.
      * split; [discriminate|]. intros [post H]. inversion H. congruence.
Qed.

(** X4. The substring test of the policy, [needle in name], answers true
    exactly when the name is some text, the needle, and some text. *)
Theorem str_in_spec (needle name : string) :
  Freeze.str_in needle name = true <->
  exists pre post, name = pre ++ needle ++ post.
Proof.
  induction name as [| c name IH]; cbn [Freeze.str_in].
  - rewrite orb_false_r, prefix_app. split.
    + intros [post H]. exists "", post. exact H.
    + intros [pre [post H]]. destruct pre; simpl in H.
      * now exists post.
      * discriminate.
  - rewrite orb_true_iff, prefix_app, IH. split.
    + intros [[post H] | [pre [post H]]].
      * exists "", post. exact H.
      * exists (String c pre), post. simpl. now rewrite H.
    + intros [pre [post H]]. destruct pre as [| c' pre]; simpl in H.
      * left. now exists post.
      * right. inversion H. now exists pre, post.
Qed.

(** X1. Applying the policy twice changes nothing more than applying it
    once. *)
Theorem freeze_idempotent (ps : Freeze.params) :
  Freeze._freeze_model_parameters (Freeze._freeze_model_parameters ps)
  = Freeze._freeze_model_parameters ps.
Proof.
  unfold Freeze._freeze_model_parameters. rewrite map_map.
  apply map_ext. intros [n g].
  destruct (Freeze.frozen_by_policy n) eqn:F; now rewrite F.
Qed.

(** X2. The policy keeps the parameters and their order, never turns a flag
    on, leaves every parameter of the three groups as it was, and clears the
    flag of every other one: the trainable parameters afterwards are the
    trainable ones of the three groups before. *)
Theorem freeze_only_clears (ps : Freeze.params) :
  map fst (Freeze._freeze_model_parameters ps) = map fst ps /\
  Freeze.trainable (Freeze._freeze_model_parameters ps)
    = filter Freeze.adaptable (Freeze.trainable ps) /\
  (forall n g, In (n, g) ps -> Freeze.adaptable n = true ->
               In (n, g) (Freeze._freeze_model_parameters ps)) /\
  (forall n, Freeze.adaptable n = false ->
             ~ In (n, true) (Freeze._freeze_model_parameters ps)).
Proof.
  split; [apply Freeze.freeze_names|].
  split; [apply Freeze.freeze_trainable|]. split.
  - intros n g Hin Ha. apply Freeze.freeze_in. exists g. split; [exact Hin|].
    now rewrite Freeze.frozen_by_policy_adaptable, Ha.
  - intros n Ha Hin. apply Freeze.freeze_in in Hin.
    destruct Hin as [g0 [_ H]].
    rewrite Freeze.frozen_by_policy_adaptable, Ha in H. discriminate.
Qed.

Lemma register_names_in (name : string) (ps : Freeze.params) (n : string) :
  In n (map fst (Freeze.register_parameter name ps)) <->
  n = name \/ In n (map fst ps).
Proof.
  induction ps as [| [n0 g0] ps IH]; simpl.
  - intuition.
  - destruct (String.eqb n0 name) eqn:E; simpl.
    + apply String.eqb_eq in E. subst. intuition.
    + rewrite IH. intuition.
Qed.

(** X3. Registering the embedding table, as every prompt construction does,
    puts it in the list as trainable, does so once however often it is
    repeated, keeps the names distinct, and commutes with the policy: the
    policy applied after a prompt construction leaves the table trainable. *)
Theorem register_parameter_policy (name : string) (ps : Freeze.params) :
  Freeze.adaptable name = true ->
  In (name, true) (Freeze.register_parameter name ps) /\
  Freeze.register_parameter name (Freeze.register_parameter name ps)
    = Freeze.register_parameter name ps /\
  (NoDup (map fst ps) -> NoDup (map fst (Freeze.register_parameter name ps))) /\
  Freeze._freeze_model_parameters (Freeze.register_parameter name ps)
    = Freeze.register_parameter name (Freeze._freeze_model_parameters ps).
Proof.
  intros Ha. split; [|split; [|split]].
  - induction ps as [| [n g] ps IH]; simpl; [now left|].
    destruct (String.eqb n name); simpl; auto.
  - induction ps as [| [n g] ps IH]; simpl.
    + now rewrite String.eqb_refl.
    + destruct (String.eqb n name) eqn:E; simpl.
      * now rewrite String.eqb_refl.
      * now rewrite E, IH.
  - induction ps as [| [n g] ps IH]; simpl; intros Hnd.
    + repeat constructor. intros [].
    + inversion Hnd as [| ? ? Hn Hps]; subst.
      destruct (String.eqb n name) eqn:E; simpl.
      * apply String.eqb_eq in E. subst. now constructor.
      * constructor; [|now apply IH].
        rewrite register_names_in. intros [-> | H]; [|contradiction].
        now rewrite String.eqb_refl in E.
  - induction ps as [| [n g] ps IH]; simpl.
    + now rewrite Freeze.frozen_by_policy_adaptable, Ha.
    + destruct (String.eqb n name) eqn:E; simpl.
      * apply String.eqb_eq in E. subst n.
        rewrite !Freeze.frozen_by_policy_adaptable, Ha. simpl.
        now rewrite String.eqb_refl.
      * rewrite IH. destruct (Freeze.frozen_by_policy n); simpl; now rewrite E.
Qed.

(** X3 for the embedding table on a list that already holds it. *)
Lemma register_parameter_policy_witness :
  Freeze._freeze_model_parameters
    (Freeze.register_parameter "pseudo_embedding.embeddings"
       [("bbox_embed.layers.0.weight", true);
        ("pseudo_embedding.embeddings", false)])
  = [("bbox_embed.layers.0.weight", false);
     ("pseudo_embedding.embeddings", true)].
Proof.
  exact (eq_trans
           (proj2 (proj2 (proj2
              (register_parameter_policy "pseudo_embedding.embeddings"
                 [("bbox_embed.layers.0.weight", true);
                  ("pseudo_embedding.embeddings", false)] eq_refl))))
           eq_refl).
Defined.

End PolicyProperties.

(** ** Construction and the errors of [forward] *)

(** X5. The constructor compares the two hidden widths only when
    [args.pseudo_embedding] is set: then unequal widths raise
    [AssertionError] and equal widths give a model with the policy applied;
    without the flag any widths are accepted and no parameter is frozen. In
    both cases the model has no bank and no embedding table yet. *)
Theorem init_policy_gate (args : Args) (parent : DynamicMDETR)
    (parent_params : Freeze.params) :
  (args_pseudo_embedding args = true ->
   args_hidden_dim args <> args_vl_hidden_dim args ->
   __init__ args parent parent_params = Raise AssertionError) /\
  (args_pseudo_embedding args = true ->
   args_hidden_dim args = args_vl_hidden_dim args ->
   exists self,
     __init__ args parent parent_params = Ok self /\
     named_parameters self = Freeze._freeze_model_parameters parent_params /\
     visual_prompts self = None /\ pseudo_embedding self = None) /\
  (args_pseudo_embedding args = false ->
   exists self,
     __init__ args parent parent_params = Ok self /\
     named_parameters self = parent_params /\
     visual_prompts self = None /\ pseudo_embedding self = None).
Proof.
  unfold __init__. split; [|split].
  - intros -> Hne. apply Nat.eqb_neq in Hne. now rewrite Hne.
  - intros -> He. apply Nat.eqb_eq in He. rewrite He. simpl.
    eexists. repeat split.
  - intros ->. eexists. repeat split.
Qed.

(** X5 with the flag set and widths 256 and 128. *)
Lemma init_policy_gate_witness :
  __init__ {| args_pseudo_num_classes := 4; args_hidden_dim := 256;
              args_vl_hidden_dim := 128; args_pseudo_embedding := true |}
           (Toy.model 1) []
  = Raise AssertionError.
Proof.
  exact (proj1 (init_policy_gate
                  {| args_pseudo_num_classes := 4; args_hidden_dim := 256;
                     args_vl_hidden_dim := 128; args_pseudo_embedding := true |}
                  (Toy.model 1) [])
               eq_refl ltac:(simpl; lia)).
Defined.

Lemma init_no_bank (args : Args) (parent : DynamicMDETR)
    (parent_params : Freeze.params) (self : DynamicFSMDETR) :
  __init__ args parent parent_params = Ok self ->
  super self = parent /\ visual_prompts self = None.
Proof.
  unfold __init__. destruct (args_pseudo_embedding args).
  - destruct (Nat.eqb _ _); simpl; [|discriminate].
    intros H. inversion H. split; reflexivity.
  - intros H. inversion H. split; reflexivity.
Qed.

(** X6. On a model as the constructor returns it, before any prompt
    construction, [forward] never returns a box: it raises, and once the
    visual and text encoders have answered with their masks the error is
    [AttributeError] for the missing bank. *)
Theorem forward_needs_prompts (args : Args) (parent : DynamicMDETR)
    (parent_params : Freeze.params) (self : DynamicFSMDETR)
    (img_data : NestedTensor image) (text_data : NestedTensor (list Z)) :
  __init__ args parent parent_params = Ok self ->
  (exists e, forward self img_data text_data = Raise e) /\
  (forall visu_mask visu_src pos text_mask,
      visumodel parent (VisuNested img_data)
        = (VisuPair visu_mask visu_src, pos) ->
      mask (textmodel parent text_data) = Some text_mask ->
      forward self img_data text_data = Raise AttributeError).
Proof.
  intros Hinit. destruct (init_no_bank _ _ _ _ Hinit) as [Hsuper Hbank].
  unfold forward. rewrite Hsuper, Hbank. split.
  - destruct (fst (visumodel parent (VisuNested img_data)));
      cbn [bind]; [|eauto].
    destruct (mask (textmodel parent text_data)); cbn [bind]; eauto.
  - intros visu_mask visu_src pos text_mask Hv Hm.
    now rewrite Hv, Hm.
Qed.

(** X6 on the small model. *)
Lemma forward_needs_prompts_witness :
  forward {| super := Toy.model 1;
             pseudo_num_classes := 2;
             hidden_dim := 1;
             named_parameters := [];
             pseudo_embedding := None;
             visual_prompts := None |}
          Toy.img_data Toy.text_data
  = Raise AttributeError.
Proof.
  exact (proj2 (forward_needs_prompts
                  {| args_pseudo_num_classes := 2; args_hidden_dim := 1;
                     args_vl_hidden_dim := 1; args_pseudo_embedding := true |}
                  (Toy.model 1) []
                  {| super := Toy.model 1;
                     pseudo_num_classes := 2;
                     hidden_dim := 1;
                     named_parameters := [];
                     pseudo_embedding := None;
                     visual_prompts := None |}
                  Toy.img_data Toy.text_data eq_refl)
               [[false; false]] [[[1%R]]; [[2%R]]] [] [[false]]
               eq_refl eq_refl).
Defined.

(** X7. When the stored bank does not have exactly as many prompts as the
    batch has rows in its masks, [forward] raises [RuntimeError]: the zeros
    that stand for the prompts in the mask have one row per prompt and
    cannot be joined to masks with one row per batch item. *)
Theorem forward_prompt_batch_mismatch (self : DynamicFSMDETR)
    (img_data : NestedTensor image) (text_data : NestedTensor (list Z))
    (visu_mask text_mask : list (list bool)) (visu_src pos : tensor3)
    (prompts : mat) :
  visumodel (super self) (VisuNested img_data)
    = (VisuPair visu_mask visu_src, pos) ->
  mask (textmodel (super self) text_data) = Some text_mask ->
  visual_prompts self = Some prompts ->
  length visu_mask = length text_mask ->
  length prompts <> length visu_mask ->
  forward self img_data text_data = Raise RuntimeError.
Proof.
  intros Hv Hm Hb HB HP. unfold forward.
  rewrite Hv. cbn [fst bind]. rewrite Hm. cbn [bind]. rewrite Hb. cbn [bind].
  now rewrite (fuse_and_split_mismatch _ _ _ _ _ _ _ HB HP).
Qed.

(** X7 on the small model with a bank of two prompts and one image. *)
Lemma forward_prompt_batch_mismatch_witness :
  forward {| super := Toy.model 1;
             pseudo_num_classes := 2;
             hidden_dim := 1;
             named_parameters := [];
             pseudo_embedding := Some [[4%R]; [5%R]];
             visual_prompts := Some [[9%R]; [8%R]] |}
          Toy.img_data Toy.text_data
  = Raise RuntimeError.
Proof.
  exact (forward_prompt_batch_mismatch
           {| super := Toy.model 1;
              pseudo_num_classes := 2;
              hidden_dim := 1;
              named_parameters := [];
              pseudo_embedding := Some [[4%R]; [5%R]];
              visual_prompts := Some [[9%R]; [8%R]] |}
           Toy.img_data Toy.text_data
           [[false; false]] [[false]] [[[1%R]]; [[2%R]]] [] [[9%R]; [8%R]]
           eq_refl eq_refl eq_refl eq_refl ltac:(simpl; lia)).
Defined.

(** ** Lengths after the split *)

(** X8. The sequence given to the encoder has P + HW + L tokens, and behind
    an encoder that keeps the length the split returns HW tokens as the
    visual stream and L tokens as the text stream. *)
Theorem fusion_stream_lengths (m : DynamicMDETR) (bs : nat) (prompts : mat)
    (visu_mask text_mask : list (list bool)) (visu_src text_src : tensor3)
    (f : fused) :
  (forall enc src msk pos, vl_encoder m = Some enc ->
                           length (enc src msk pos) = length src) ->
  length visu_src = num_visu_token m ->
  fuse_and_split m bs prompts visu_mask visu_src text_mask text_src = Ok f ->
  length (Tensor.unsqueeze1_repeat bs prompts ++ visu_src ++ text_src)
    = length prompts + num_visu_token m + length text_src /\
  length (visu_feat f) = num_visu_token m /\
  length (fused_language_feat f) = length text_src.
Proof.
  intros Henc HHW Hf. split.
  - rewrite vl_src_length. lia.
  - exact (@fuse_and_split_lengths m bs prompts visu_mask text_mask visu_src
             text_src f Henc HHW Hf).
Qed.

(** X8 on the small model: one prompt, two visual tokens, one text token. *)
Lemma fusion_stream_lengths_witness :
  length (Tensor.unsqueeze1_repeat 1 [[9%R]] ++ [[[1%R]]; [[2%R]]] ++ [[[3%R]]])
    = 4 /\
  length [[[9%R]]; [[1%R]]] = 2 /\ length [[[3%R]]] = 1.
Proof.
  exact (fusion_stream_lengths (Toy.model 1) 1 [[9%R]] [[false; false]]
           [[false]] [[[1%R]]; [[2%R]]] [[[3%R]]]
           {| visu_feat := [[[9%R]]; [[1%R]]];
              fused_language_feat := [[[3%R]]];
              v_pos := [[[0%R]]; [[0%R]]];
              l_pos := [[[0%R]]] |}
           ltac:(intros enc src msk pos H; discriminate H)
           eq_refl eq_refl).
Defined.

(** X9. Without a fusion encoder, concatenating and splitting gives the text
    tokens back unchanged as the text stream, however many prompts there
    are. *)
Theorem fusion_text_round_trip (m : DynamicMDETR) (bs : nat) (prompts : mat)
    (visu_mask text_mask : list (list bool)) (visu_src text_src : tensor3)
    (f : fused) :
  vl_encoder m = None ->
  length visu_src = num_visu_token m ->
  fuse_and_split m bs prompts visu_mask visu_src text_mask text_src = Ok f ->
  fused_language_feat f = text_src.
Proof.
  intros Henc HHW Hf.
  exact (proj1 (@fuse_and_split_identity m bs prompts visu_mask text_mask
                  visu_src text_src f Henc HHW Hf)).
Qed.

(** X9 on the small model. *)
Lemma fusion_text_round_trip_witness :
  fused_language_feat
    {| visu_feat := [[[9%R]]; [[1%R]]];
       fused_language_feat := [[[3%R]]];
       v_pos := [[[0%R]]; [[0%R]]];
       l_pos := [[[0%R]]] |}
  = [[[3%R]]].
Proof.
  exact (fusion_text_round_trip (Toy.model 1) 1 [[9%R]] [[false; false]]
           [[false]] [[[1%R]]; [[2%R]]] [[[3%R]]]
           {| visu_feat := [[[9%R]]; [[1%R]]];
              fused_language_feat := [[[3%R]]];
              v_pos := [[[0%R]]; [[0%R]]];
              l_pos := [[[0%R]]] |}
           eq_refl eq_refl eq_refl).
Defined.

(** X10. The positional encodings are split at HW without regard to the
    prompts: the visual part has the first HW rows of the positional table
    and the text part all the rows after them, each repeated over the batch.
    With a table of at least HW rows the text part is as long as the text
    stream exactly when the table has HW + L rows, that is no row for any
    prompt. *)
Theorem positional_split_lengths (m : DynamicMDETR) (bs : nat) (prompts : mat)
    (visu_mask text_mask : list (list bool)) (visu_src text_src : tensor3)
    (f : fused) :
  fuse_and_split m bs prompts visu_mask visu_src text_mask text_src = Ok f ->
  v_pos f = map (fun row => repeat row bs)
                (firstn (num_visu_token m) (vl_pos_embed_weight m)) /\
  l_pos f = map (fun row => repeat row bs)
                (skipn (num_visu_token m) (vl_pos_embed_weight m)) /\
  length (l_pos f) = length (vl_pos_embed_weight m) - num_visu_token m /\
  (num_visu_token m <= length (vl_pos_embed_weight m) ->
   (length (l_pos f) = length text_src <->
    length (vl_pos_embed_weight m) = num_visu_token m + length text_src)).
Proof.
  unfold fuse_and_split.
  destruct (Tensor.cat_dim0 _) as [vl_src | e]; cbn [bind]; [|discriminate].
  destruct (Tensor.cat_dim1 _) as [vl_mask | e]; cbn [bind]; [|discriminate].
  intros H. inversion H; subst f; clear H. cbn [v_pos l_pos].
  unfold Tensor.slice_to, Tensor.slice_from, Tensor.unsqueeze1_repeat.
  rewrite firstn_map, skipn_map, length_map, length_skipn.
  repeat split; try reflexivity; lia.
Qed.

(** X10 on the small model, whose table has three rows for two visual
    tokens and one text token. *)
Lemma positional_split_lengths_witness :
  length (l_pos {| visu_feat := [[[9%R]]; [[1%R]]];
                   fused_language_feat := [[[3%R]]];
                   v_pos := [[[0%R]]; [[0%R]]];
                   l_pos := [[[0%R]]] |})
  = length (vl_pos_embed_weight (Toy.model 1)) - num_visu_token (Toy.model 1).
Proof.
  exact (proj1 (proj2 (proj2
           (positional_split_lengths (Toy.model 1) 1 [[9%R]] [[false; false]]
              [[false]] [[[1%R]]; [[2%R]]] [[[3%R]]]
              {| visu_feat := [[[9%R]]; [[1%R]]];
                 fused_language_feat := [[[3%R]]];
                 v_pos := [[[0%R]]; [[0%R]]];
                 l_pos := [[[0%R]]] |}
              eq_refl)))).
Defined.

(** ** More on the masked pooling *)

Lemma scale_zero_row (row : vec) :
  map (Rmult (1 - Tensor.b2r true * 1)) row = repeat 0%R (length row).
Proof.
  induction row as [| v row IH]; simpl; [reflexivity|].
  simpl in IH. rewrite IH. f_equal. lra.
Qed.

Lemma scale_one_row (row : vec) :
  map (Rmult (1 - Tensor.b2r false * 1)) row = row.
Proof.
  induction row as [| v row IH]; simpl; [reflexivity|].
  simpl in IH. rewrite IH. f_equal. lra.
Qed.

Lemma weigh_agree (C : nat) (mask_b : list bool) (rows rows' : mat) :
  length rows = length mask_b -> length rows' = length mask_b ->
  Forall (fun row => length row = C) rows ->
  Forall (fun row => length row = C) rows' ->
  (forall l, nth_error mask_b l = Some false -> nth l rows [] = nth l rows' []) ->
  weigh (map (fun b => (1 - Tensor.b2r b * 1)%R) mask_b) rows
  = weigh (map (fun b => (1 - Tensor.b2r b * 1)%R) mask_b) rows'.
Proof.
  revert rows rows'.
  induction mask_b as [| b mask_b IH]; intros [| r rows] [| r' rows'];
    simpl; try discriminate; [reflexivity|].
  intros Hl Hl' Hw Hw' Hagree.
  injection Hl as Hl. injection Hl' as Hl'.
  inversion Hw; subst. inversion Hw'; subst.
  unfold weigh in *. cbn [map combine]. f_equal.
  - destruct b.
    + rewrite !scale_zero_row. congruence.
    + now rewrite (Hagree 0 eq_refl : r = r').
  - apply IH; auto. intros l Hlv. exact (Hagree (S l) Hlv).
Qed.

(** X11. The pooled vector of a batch item does not depend on the decode
    output at its padding positions: two decode outputs of the same shape
    that agree on the valid positions of the item pool to the same row. *)
Theorem masked_pool_ignores_padding (text_mask : list (list bool))
    (x x' : tensor3) (b C : nat) (mask_b : list bool) :
  nth_error text_mask b = Some mask_b ->
  b < Tensor.size1 x -> b < Tensor.size1 x' ->
  length x = length mask_b -> length x' = length mask_b ->
  Forall (fun tok => length (nth b tok []) = C) x ->
  Forall (fun tok => length (nth b tok []) = C) x' ->
  (forall l, nth_error mask_b l = Some false ->
             nth b (nth l x []) [] = nth b (nth l x' []) []) ->
  nth_error (masked_pool text_mask x) b = nth_error (masked_pool text_mask x') b.
Proof.
  intros Hmask Hb Hb' Hl Hl' Hw Hw' Hagree.
  rewrite (@masked_pool_nth_error text_mask x b mask_b Hmask Hb).
  rewrite (@masked_pool_nth_error text_mask x' b mask_b Hmask Hb').
  do 3 f_equal.
  apply weigh_agree with (C := C).
  - now rewrite length_map.
  - now rewrite length_map.
  - now apply Forall_map.
  - now apply Forall_map.
  - intros l Hlv.
    assert (Hlt : l < length mask_b) by (apply nth_error_Some; congruence).
    unfold tensor3, mat, vec in *.
    rewrite nth_indep with (d' := (fun tok : list (list R) => nth b tok []) [])
      by (rewrite length_map; lia).
    rewrite (map_nth (fun tok : mat => nth b tok [])).
    symmetry.
    rewrite nth_indep with (d' := (fun tok : mat => nth b tok []) [])
      by (rewrite length_map; lia).
    rewrite (map_nth (fun tok : mat => nth b tok [])).
    symmetry. now apply Hagree.
Qed.

(** X11 on one batch item with a padded second position. *)
Lemma masked_pool_ignores_padding_witness :
  nth_error (masked_pool [[false; true]] [[[1%R; 2%R]]; [[3%R; 4%R]]]) 0
  = nth_error (masked_pool [[false; true]] [[[1%R; 2%R]]; [[7%R; 8%R]]]) 0.
Proof.
  refine (masked_pool_ignores_padding [[false; true]]
            [[[1%R; 2%R]]; [[3%R; 4%R]]] [[[1%R; 2%R]]; [[7%R; 8%R]]]
            0 2 [false; true] eq_refl _ _ eq_refl eq_refl _ _ _).
  - unfold Tensor.size1. simpl. lia.
  - unfold Tensor.size1. simpl. lia.
  - repeat constructor.
  - repeat constructor.
  - intros [| [| l]] H; simpl in H; try discriminate; reflexivity.
Defined.

(** X12. The pooled row of a batch item is computed from the mask row and
    the decode output of that item alone: inputs that agree on item [b] give
    the same row for [b], whatever the other items hold. *)
Theorem masked_pool_batch_independent (text_mask text_mask' : list (list bool))
    (x x' : tensor3) (b : nat) (mask_b : list bool) :
  nth_error text_mask b = Some mask_b ->
  nth_error text_mask' b = Some mask_b ->
  b < Tensor.size1 x -> b < Tensor.size1 x' ->
  map (fun tok => nth b tok []) x = map (fun tok => nth b tok []) x' ->
  nth_error (masked_pool text_mask x) b = nth_error (masked_pool text_mask' x') b.
Proof.
  intros Hm Hm' Hb Hb' Hcol.
  rewrite (@masked_pool_nth_error text_mask x b mask_b Hm Hb).
  rewrite (@masked_pool_nth_error text_mask' x' b mask_b Hm' Hb').
  unfold tensor3, mat, vec in *. now rewrite Hcol.
Qed.

(** X12 on item 0 of two batches that differ in item 1. *)
Lemma masked_pool_batch_independent_witness :
  nth_error (masked_pool [[false]; [false]] [[[1%R]; [2%R]]]) 0
  = nth_error (masked_pool [[false]; [true]] [[[1%R]; [5%R]]]) 0.
Proof.
  refine (masked_pool_batch_independent [[false]; [false]] [[false]; [true]]
            [[[1%R]; [2%R]]] [[[1%R]; [5%R]]] 0 [false]
            eq_refl eq_refl _ _ eq_refl).
  - unfold Tensor.size1. simpl. lia.
  - unfold Tensor.size1. simpl. lia.
Defined.

Lemma count_valid_zero (mask_b : list bool) :
  count_valid mask_b = 0 <-> forallb (fun b => b) mask_b = true.
Proof.
  unfold count_valid. induction mask_b as [| [|] rest IH]; simpl.
  - tauto.
  - exact IH.
  - split; discriminate.
Qed.

(** X13. The divisor of the pooling step is zero exactly for a batch item
    whose text positions are all padding; the code divides by it without a
    test. *)
Theorem pooling_divisor_zero_iff_all_padding (text_mask : list (list bool))
    (b : nat) (mask_b : list bool) :
  nth_error text_mask b = Some mask_b ->
  (nth_error (text_select_num (text_select text_mask)) b = Some 0%R <->
   forallb (fun p => p) mask_b = true).
Proof.
  intros Hmask. unfold text_select_num, text_select.
  rewrite !nth_error_map, Hmask. cbn [option_map].
  rewrite select_sum_count, <- count_valid_zero. split.
  - intros H. inversion H as [H0].
    destruct (count_valid mask_b); [reflexivity|].
    exfalso. rewrite S_INR in H0. pose proof (pos_INR n). lra.
  - intros ->. reflexivity.
Qed.

(** X13 on an item with three padding positions. *)
Lemma pooling_divisor_zero_iff_all_padding_witness :
  nth_error (text_select_num (text_select [[true; true; true]])) 0 = Some 0%R.
Proof.
  exact (proj2 (pooling_divisor_zero_iff_all_padding [[true; true; true]] 0
                  [true; true; true] eq_refl) eq_refl).
Defined.

Lemma weigh_all_valid (mask_b : list bool) (rows : mat) :
  forallb negb mask_b = true -> length rows = length mask_b ->
  weigh (map (fun b => (1 - Tensor.b2r b * 1)%R) mask_b) rows = rows.
Proof.
  revert rows. induction mask_b as [| b mask_b IH]; intros [| r rows]; simpl;
    try discriminate; [reflexivity|].
  intros Hv Hl. apply andb_prop in Hv. destruct Hv as [Hb Hv].
  destruct b; [discriminate|]. injection Hl as Hl.
  unfold weigh in *. cbn [map combine].
  now rewrite (IH rows Hv Hl), scale_one_row.
Qed.

Lemma count_valid_all (mask_b : list bool) :
  forallb negb mask_b = true -> count_valid mask_b = length mask_b.
Proof.
  unfold count_valid. induction mask_b as [| [|] rest IH]; simpl;
    [reflexivity | discriminate | intros H; now rewrite (IH H)].
Qed.

(** X14. For a batch item without padding the pooled row is the plain mean
    of its decode output over the text length. *)
Theorem masked_pool_all_valid_is_mean (text_mask : list (list bool))
    (x : tensor3) (b : nat) (mask_b : list bool) :
  nth_error text_mask b = Some mask_b ->
  forallb negb mask_b = true ->
  b < Tensor.size1 x ->
  length x = length mask_b ->
  nth_error (masked_pool text_mask x) b
  = Some (map (fun v => (v / INR (length x))%R)
              (Tensor.sum_rows (map (fun tok => nth b tok []) x))).
Proof.
  intros Hmask Hvalid Hb Hlen.
  rewrite (@masked_pool_nth_error text_mask x b mask_b Hmask Hb).
  rewrite weigh_all_valid; [| exact Hvalid | now rewrite length_map].
  now rewrite (count_valid_all mask_b Hvalid), Hlen.
Qed.

(** X14 on one item with two valid positions. *)
Lemma masked_pool_all_valid_is_mean_witness :
  nth_error (masked_pool [[false; false]] [[[1%R; 2%R]]; [[3%R; 4%R]]]) 0
  = Some (map (fun v => (v / INR 2)%R)
              (Tensor.sum_rows [[1%R; 2%R]; [3%R; 4%R]])).
Proof.
  refine (masked_pool_all_valid_is_mean [[false; false]]
            [[[1%R; 2%R]]; [[3%R; 4%R]]] 0 [false; false]
            eq_refl eq_refl _ eq_refl).
  unfold Tensor.size1. simpl. lia.
Defined.

(** ** Errors and bookkeeping of the prompt constructor *)

Lemma bind_ok {A B : Type} (r : result A) (k : A -> result B) (b : B) :
  bind r k = Ok b -> exists a, r = Ok a /\ k a = Ok b.
Proof. destruct r as [a | e]; simpl; [eauto | discriminate]. Qed.

Section PromptConstructorMore.

Variable rng : Type.
Variable randint : Z -> Z -> rng -> Z * rng.
Variable gen : Type.
Variable normal_ : nat -> nat -> gen -> mat * gen.

(** X15. Without any label (and so for an empty template set) the prompt
    constructor raises [RuntimeError]: no prompt is built and [torch.cat]
    refuses the empty list. *)
Theorem prompts_without_labels (self : DynamicFSMDETR) (s : rng) (g : gen)
    (templates : list image) (hidden_dim_arg : nat) :
  _get_visual_prompts randint normal_ self s g templates [] hidden_dim_arg
  = Raise RuntimeError.
Proof.
  unfold _get_visual_prompts, PseudoEmbedding.
  destruct (normal_ (pseudo_num_classes self) (hidden_dim self) g).
  reflexivity.
Qed.

(** The state of [random] after [n] calls of [randint(a, b)]. *)
Definition draws (n : nat) (a b : Z) (s : rng) : rng :=
  Nat.iter n (fun s => snd (randint a b s)) s.

Lemma draws_add (n k : nat) (a b : Z) (s : rng) :
  draws (n + k) a b s = draws k a b (draws n a b s).
Proof.
  unfold draws. rewrite Nat.add_comm. apply Nat.iter_add.
Qed.

Lemma template_prompt_state (m : DynamicMDETR) (embeddings : mat) (d : nat)
    (t : image) (s s' : rng) (p : vec) :
  template_prompt randint m embeddings d t s = Ok (p, s') ->
  s' = draws 1 0 (Z.of_nat (length embeddings) - 1) s.
Proof.
  unfold template_prompt. intros H.
  apply bind_ok in H. destruct H as [v [_ H]].
  apply bind_ok in H. destruct H as [[idx s1] [Hr H]].
  apply bind_ok in H. destruct H as [row [_ H]].
  apply bind_ok in H. destruct H as [c [_ H]].
  inversion H; subst. unfold py_randint, Tensor.size0 in Hr.
  destruct (0 <=? Z.of_nat (length embeddings) - 1)%Z; [|discriminate].
  inversion Hr as [Hr']. unfold draws. simpl. now rewrite Hr'.
Qed.

Lemma label_prompts_state (m : DynamicMDETR) (embeddings : mat) (d : nat)
    (ts : list image) (s s' : rng) (ps : list vec) :
  label_prompts randint m embeddings d ts s = Ok (ps, s') ->
  length ps = length ts /\
  s' = draws (length ts) 0 (Z.of_nat (length embeddings) - 1) s.
Proof.
  revert s ps. induction ts as [| t ts IH]; intros s ps; simpl.
  - intros H. inversion H. split; reflexivity.
  - intros H. apply bind_ok in H. destruct H as [[p s1] [Hp H]].
    apply bind_ok in H. destruct H as [[qs s2] [Hq H]].
    inversion H; subst. destruct (IH _ _ Hq) as [Hl Hs].
    apply template_prompt_state in Hp. split; [simpl; now rewrite Hl|].
    rewrite Hs, Hp. symmetry. apply (draws_add 1 (length ts)).
Qed.

Lemma index_select_length {A : Type} (x : list A) (indices : list nat)
    (ys : list A) :
  Tensor.index_select x indices = Ok ys -> length ys = length indices.
Proof.
  revert ys. induction indices as [| i indices IH]; intros ys; simpl.
  - intros H. now inversion H.
  - intros H. apply bind_ok in H. destruct H as [a [_ H]].
    apply bind_ok in H. destruct H as [r [Hr H]].
    inversion H; subst. simpl. now rewrite (IH r Hr).
Qed.

Lemma all_prompts_state (m : DynamicMDETR) (embeddings : mat) (d : nat)
    (templates : list image) (labels U : list Z) (s s' : rng)
    (ps : list vec) :
  all_prompts randint m embeddings d templates labels U s = Ok (ps, s') ->
  length ps = length (concat (map (nonzero_eq labels) U)) /\
  s' = draws (length ps) 0 (Z.of_nat (length embeddings) - 1) s.
Proof.
  revert s ps. induction U as [| u U IH]; intros s ps; simpl.
  - intros H. inversion H. split; reflexivity.
  - intros H. apply bind_ok in H. destruct H as [ts [Hts H]].
    apply bind_ok in H. destruct H as [[qs s1] [Hq H]].
    apply bind_ok in H. destruct H as [[rs s2] [Hr H]].
    inversion H; subst.
    apply index_select_length in Hts.
    apply label_prompts_state in Hq. destruct Hq as [Hql Hqs].
    destruct (IH _ _ Hr) as [Hrl Hrs].
    rewrite !length_app. split; [lia|].
    rewrite draws_add, Hrs, Hqs. now rewrite Hql.
Qed.

(** X16. A prompt construction that succeeds has drawn one embedding row per
    label, so one per template: the bank has as many entries as there are
    labels, the state of [random] is the one after that many calls of
    [randint(0, rows - 1)], and the generator is the one the initialisation
    of the table left. *)
Theorem prompts_random_draws (self self' : DynamicFSMDETR) (s s' : rng)
    (g g' : gen) (templates : list image) (template_labels : list Z)
    (hidden_dim_arg : nat) :
  _get_visual_prompts randint normal_ self s g templates template_labels
                      hidden_dim_arg = Ok (self', s', g') ->
  let table := fst (normal_ (pseudo_num_classes self) (hidden_dim self) g) in
  g' = snd (normal_ (pseudo_num_classes self) (hidden_dim self) g) /\
  s' = draws (length template_labels) 0 (Z.of_nat (length table) - 1) s /\
  exists bank,
    visual_prompts self' = Some bank /\
    length bank = length template_labels.
Proof.
  unfold _get_visual_prompts, PseudoEmbedding.
  destruct (normal_ (pseudo_num_classes self) (hidden_dim self) g)
    as [table g1].
  intros H. cbn [fst snd].
  apply bind_ok in H. destruct H as [[ps s1] [Hps H]].
  apply bind_ok in H. destruct H as [bank [Hbank H]].
  inversion H; subst; clear H.
  apply all_prompts_state in Hps. destruct Hps as [Hl Hs].
  fold (visit_order template_labels) in Hl.
  rewrite (Permutation_length (visit_order_perm template_labels)),
    length_seq in Hl.
  assert (Hb : bank = ps).
  { unfold Tensor.cat_rows in Hbank. destruct ps; [discriminate|].
    destruct (forallb _ _); [now inversion Hbank | discriminate]. }
  subst bank. split; [reflexivity|]. split; [now rewrite Hs, Hl|].
  exists ps. split; [reflexivity | exact Hl].
Qed.

End PromptConstructorMore.

(** X16 on one template, with the counter as random source. *)
Lemma prompts_random_draws_witness :
  1 = draws nat ToyRandom.randint 1 0 (Z.of_nat 2 - 1) 0 /\
  exists bank,
    Some [Tensor.vadd [Tensor.plane_mean [[2%R]]] [0%R]] = Some bank /\
    length bank = 1.
Proof.
  exact (proj2 (prompts_random_draws nat ToyRandom.randint nat ToyRandom.normal_
                  (Toy.self 1)
                  {| super := Toy.model 1;
                     pseudo_num_classes := 2;
                     hidden_dim := 1;
                     named_parameters :=
                       [("pseudo_embedding.embeddings"%string, true)];
                     pseudo_embedding := Some [[0%R]; [0%R]];
                     visual_prompts :=
                       Some [Tensor.vadd [Tensor.plane_mean [[2%R]]] [0%R]] |}
                  0 1 0 1 [[[[2%R]]]] [5%Z] 1 eq_refl)).
Defined.

Lemma index_select_in_range {A : Type} (x : list A) (indices : list nat) :
  (forall i, In i indices -> i < length x) ->
  exists ys,
    Tensor.index_select x indices = Ok ys /\
    Forall2 (fun i y => nth_error x i = Some y) indices ys.
Proof.
  induction indices as [| i indices IH]; intros Hlt; simpl.
  - exists []. split; [reflexivity | constructor].
  - unfold Tensor.getitem.
    destruct (nth_error x i) as [a |] eqn:Ha.
    + cbn [bind].
      destruct (IH (fun j Hj => Hlt j (or_intror Hj))) as [ys [Hys Hall]].
      rewrite Hys. cbn [bind].
      exists (a :: ys). split; [reflexivity | now constructor].
    + apply nth_error_None in Ha.
      pose proof (Hlt i (or_introl eq_refl)) as Hi.
      exfalso. exact (Nat.lt_irrefl _ (Nat.lt_le_trans _ _ _ Hi Ha)).
Qed.

Section PromptConstructorErrors.

Variable rng : Type.
Variable randint : Z -> Z -> rng -> Z * rng.
Variable gen : Type.
Variable normal_ : nat -> nat -> gen -> mat * gen.

Hypothesis randint_range :
  forall a b s, (a <= b)%Z -> (a <= fst (randint a b s) <= b)%Z.
Hypothesis normal_shape :
  forall n d g,
    length (fst (normal_ n d g)) = n /\
    Forall (fun row => length row = d) (fst (normal_ n d g)).

Lemma nonzero_eq_nonempty (labels : list Z) (u : Z) :
  In u labels -> nonzero_eq labels u <> [].
Proof.
  intros Hin Hnil. apply In_nth_error in Hin. destruct Hin as [i Hi].
  apply nonzero_eq_in in Hi. rewrite Hnil in Hi. exact Hi.
Qed.

(** X17. With a table of no row ([pseudo_num_classes] is 0) and at least one
    labelled template whose feature the backbone delivers, the prompt
    constructor raises [ValueError]: [random.randint(0, -1)] has an empty
    range. *)
Theorem prompts_empty_table (self : DynamicFSMDETR) (s : rng) (g : gen)
    (templates : list image) (template_labels : list Z) :
  pseudo_num_classes self = 0 ->
  template_labels <> [] ->
  length template_labels = length templates ->
  (forall t, In t templates ->
             exists v, template_feature (super self) (hidden_dim self) t = Ok v) ->
  _get_visual_prompts randint normal_ self s g templates template_labels
                      (hidden_dim self) = Raise ValueError.
Proof.
  intros Hzero Hne Hlen Hfeat.
  unfold _get_visual_prompts, PseudoEmbedding.
  destruct (normal_shape (pseudo_num_classes self) (hidden_dim self) g)
    as [Hrows _].
  destruct (normal_ (pseudo_num_classes self) (hidden_dim self) g)
    as [table g1].
  cbn [fst] in Hrows. rewrite Hzero in Hrows.
  destruct table; [|discriminate]. clear Hrows.
  destruct (unique template_labels) as [| u U] eqn:HU.
  { destruct template_labels as [| l0 ls]; [congruence|].
    assert (Hin : In l0 (unique (l0 :: ls))) by (apply unique_in; now left).
    rewrite HU in Hin. destruct Hin. }
  assert (Hu : In u template_labels).
  { apply unique_in. rewrite HU. now left. }
  cbn [all_prompts].
  destruct (index_select_in_range templates (nonzero_eq template_labels u))
    as [ts [Hts Hsel]].
  { intros i Hi. apply nonzero_eq_in in Hi. rewrite <- Hlen.
    apply nth_error_Some. congruence. }
  rewrite Hts. cbn [bind].
  destruct ts as [| t ts].
  { inversion Hsel as [Hnil |]. symmetry in Hnil.
    now apply nonzero_eq_nonempty in Hnil. }
  assert (Ht : In t templates).
  { inversion Hsel; subst. eapply nth_error_In; eauto. }
  destruct (Hfeat t Ht) as [v Hv].
  cbn [label_prompts]. unfold template_prompt. rewrite Hv. reflexivity.
Qed.

(** The template of the runs below has a feature of width 1. *)
Lemma toy_template_feature :
  forall t, In t [[[[2%R]]]] ->
            exists v, template_feature (Toy.model 1) 1 t = Ok v.
Proof.
  intros t [<- | []]. eexists. reflexivity.
Qed.

Lemma index_select_overflow {A : Type} (x : list A) (indices : list nat) :
  (exists i, In i indices /\ length x <= i) ->
  Tensor.index_select x indices = Raise IndexError.
Proof.
  induction indices as [| j indices IH]; intros [i [Hin Hi]];
    [destruct Hin|].
  simpl. unfold Tensor.getitem.
  destruct (nth_error x j) as [a |] eqn:Ha; [|reflexivity].
  cbn [bind]. destruct Hin as [-> | Hin].
  - apply nth_error_None in Hi. congruence.
  - rewrite IH; [reflexivity | eauto].
Qed.

Lemma all_prompts_overflow (m : DynamicMDETR) (embeddings : mat) (d : nat)
    (templates : list image) (labels U : list Z) (s : rng) :
  0 < length embeddings ->
  Forall (fun row => length row = d) embeddings ->
  (forall t, In t templates -> exists v, template_feature m d t = Ok v) ->
  (exists u i, In u U /\ In i (nonzero_eq labels u) /\ length templates <= i) ->
  all_prompts randint m embeddings d templates labels U s = Raise IndexError.
Proof.
  intros Hrows Hwidth Hfeat. revert s.
  induction U as [| u U IH]; intros s [u0 [i [Hu0 [Hi Hover]]]];
    [destruct Hu0|].
  cbn [all_prompts].
  destruct (Exists_dec (fun j => length templates <= j)
                       (nonzero_eq labels u)
                       (fun j => le_dec (length templates) j))
    as [Hbad | Hgood].
  - rewrite index_select_overflow; [reflexivity|].
    apply Exists_exists in Hbad. exact Hbad.
  - destruct (index_select_in_range templates (nonzero_eq labels u))
      as [ts [Hts Hsel]].
    { intros j Hj. destruct (le_lt_dec (length templates) j); [|assumption].
      exfalso. apply Hgood, Exists_exists. eauto. }
    rewrite Hts. cbn [bind].
    destruct (label_prompts_ok rng randint randint_range m embeddings d
                Hrows Hwidth ts s) as [ps [s1 [Hps _]]].
    { intros t Ht. apply Hfeat.
      destruct (Forall2_in_r _ _ _ t Hsel Ht) as [j [_ Hj]].
      eapply nth_error_In; eauto. }
    rewrite Hps. cbn [bind].
    rewrite IH; [reflexivity|].
    destruct Hu0 as [-> | Hu0].
    + exfalso. apply Hgood, Exists_exists. eauto.
    + eauto.
Qed.

(** X18. With more labels than templates, a table with at least one row and
    templates whose features the backbone delivers, the prompt constructor
    raises [IndexError]: a label position beyond the last template is used to
    index the templates. *)
Theorem prompts_label_overflow (self : DynamicFSMDETR) (s : rng) (g : gen)
    (templates : list image) (template_labels : list Z) :
  length templates < length template_labels ->
  0 < pseudo_num_classes self ->
  (forall t, In t templates ->
             exists v, template_feature (super self) (hidden_dim self) t = Ok v) ->
  _get_visual_prompts randint normal_ self s g templates template_labels
                      (hidden_dim self) = Raise IndexError.
Proof.
  intros Hover Hclasses Hfeat.
  unfold _get_visual_prompts, PseudoEmbedding.
  destruct (normal_shape (pseudo_num_classes self) (hidden_dim self) g)
    as [Hrows Hwidth].
  destruct (normal_ (pseudo_num_classes self) (hidden_dim self) g)
    as [table g1].
  cbn [fst] in Hrows, Hwidth.
  rewrite all_prompts_overflow; [reflexivity | lia | exact Hwidth | exact Hfeat |].
  destruct (nth_error template_labels (length templates)) as [u |] eqn:Hu.
  - exists u, (length templates). split; [|split; [|lia]].
    + apply unique_in. eapply nth_error_In; eauto.
    + now apply nonzero_eq_in.
  - apply nth_error_None in Hu. lia.
Qed.

End PromptConstructorErrors.

(** X17 on one template, with a model whose table has no row. *)
Lemma prompts_empty_table_witness :
  _get_visual_prompts ToyRandom.randint ToyRandom.normal_
    {| super := Toy.model 1;
       pseudo_num_classes := 0;
       hidden_dim := 1;
       named_parameters := [];
       pseudo_embedding := None;
       visual_prompts := None |}
    0 0 [[[[2%R]]]] [5%Z] 1
  = Raise ValueError.
Proof.
  exact (prompts_empty_table nat ToyRandom.randint nat ToyRandom.normal_
           ToyRandom.normal_shape
           {| super := Toy.model 1;
              pseudo_num_classes := 0;
              hidden_dim := 1;
              named_parameters := [];
              pseudo_embedding := None;
              visual_prompts := None |}
           0 0 [[[[2%R]]]] [5%Z] eq_refl ltac:(discriminate) eq_refl
           toy_template_feature).
Defined.

(** X18 on one template with two labels. *)
Lemma prompts_label_overflow_witness :
  _get_visual_prompts ToyRandom.randint ToyRandom.normal_ (Toy.self 1) 0 0
    [[[[2%R]]]] [5%Z; 3%Z] 1
  = Raise IndexError.
Proof.
  exact (prompts_label_overflow nat ToyRandom.randint nat ToyRandom.normal_
           ToyRandom.randint_range ToyRandom.normal_shape
           (Toy.self 1) 0 0 [[[[2%R]]]] [5%Z; 3%Z]
           ltac:(simpl; lia) ltac:(simpl; lia)
           toy_template_feature).
Defined.

(** X19. A prompt construction that succeeds leaves the parent's modules and
    the configuration as they were, stores the table it drew, registers the
    table as a trainable parameter, and stores a bank that is not empty and
    whose rows all have one width. *)
Theorem prompts_success_frame (rng : Type) (randint : Z -> Z -> rng -> Z * rng)
    (gen : Type) (normal_ : nat -> nat -> gen -> mat * gen)
    (self self' : DynamicFSMDETR) (s s' : rng) (g g' : gen)
    (templates : list image) (template_labels : list Z) (hidden_dim_arg : nat) :
  _get_visual_prompts randint normal_ self s g templates template_labels
                      hidden_dim_arg = Ok (self', s', g') ->
  super self' = super self /\
  pseudo_num_classes self' = pseudo_num_classes self /\
  hidden_dim self' = hidden_dim self /\
  named_parameters self'
    = Freeze.register_parameter "pseudo_embedding.embeddings"
                                (named_parameters self) /\
  pseudo_embedding self'
    = Some (fst (normal_ (pseudo_num_classes self) (hidden_dim self) g)) /\
  exists bank width,
    visual_prompts self' = Some bank /\
    bank <> [] /\
    Forall (fun row => length row = width) bank.
Proof.
  unfold _get_visual_prompts, PseudoEmbedding.
  destruct (normal_ (pseudo_num_classes self) (hidden_dim self) g)
    as [table g1].
  intros H. apply bind_ok in H. destruct H as [[ps s1] [_ H]].
  apply bind_ok in H. destruct H as [bank [Hbank H]].
  inversion H; subst; clear H. cbn.
  repeat (split; [reflexivity|]).
  unfold Tensor.cat_rows in Hbank. destruct ps as [| r ps]; [discriminate|].
  revert Hbank.
  match goal with
  | |- (if ?c then _ else _) = _ -> _ => destruct c eqn:Hall
  end; [intros Hbank | intros Hbank; discriminate Hbank].
  inversion Hbank; subst. exists (r :: ps), (length r).
  split; [reflexivity|]. split; [discriminate|].
  apply Forall_forall. intros row Hrow.
  rewrite forallb_forall in Hall. now apply Nat.eqb_eq, Hall.
Qed.

(** X19 on one template. *)
Lemma prompts_success_frame_witness :
  exists bank width,
    Some [Tensor.vadd [Tensor.plane_mean [[2%R]]] [0%R]] = Some bank /\
    bank <> [] /\
    Forall (fun row => length row = width) bank.
Proof.
  exact (proj2 (proj2 (proj2 (proj2 (proj2
           (prompts_success_frame nat ToyRandom.randint nat ToyRandom.normal_
              (Toy.self 1)
              {| super := Toy.model 1;
                 pseudo_num_classes := 2;
                 hidden_dim := 1;
                 named_parameters :=
                   [("pseudo_embedding.embeddings"%string, true)];
                 pseudo_embedding := Some [[0%R]; [0%R]];
                 visual_prompts :=
                   Some [Tensor.vadd [Tensor.plane_mean [[2%R]]] [0%R]] |}
              0 1 0 1 [[[[2%R]]]] [5%Z] 1 eq_refl)))))).
Defined.

(** * Visualisation: [denormalize] and the box drawings of [engine.py] *)

From Stdlib Require DecimalString DecimalNat.

Module Drawing.

Local Open Scope string_scope.

(** [denormalize]: the channels that [zip(img, mean, std)] reaches are
    scaled and shifted in the clone, the channels after them stay as they
    are. *)
Fixpoint denormalize (image_tensor : tensor3) (mean std : vec) : tensor3 :=
  match image_tensor, mean, std with
  | t :: img, m :: mean', s :: std' =>
      map (map (fun v => (v * s + m)%R)) t :: denormalize img mean' std'
  | _, _, _ => image_tensor
  end.

(** [torch.clamp(img, 0, 1)] on the finite values that the real numbers
    stand for; torch lets a NaN through. *)
Definition clamp01 (img : tensor3) : tensor3 :=
  map (map (map (fun v => Rmin (Rmax v 0) 1))) img.

(** What is put on the axes, and the figure that is saved. *)
Inductive artist : Type :=
| ImShow (pixels : tensor3)
| Rectangle (x y width height : R) (linewidth : Z) (edgecolor : string)
            (linestyle : option string) (label : string)
| AxText (x y : R) (s : string)
| Legend (loc : string).

Record figure : Type := {
  artists : list artist;
  save_path : string
}.

Definition mean : vec := [0.485%R; 0.456%R; 0.406%R].
Definition std : vec := [0.229%R; 0.224%R; 0.225%R].

(** The rectangle of a center-width-height box on an image of
    [height] x [width] pixels; a tensor with another number of entries than
    4 is not drawn. *)
Definition box_patch (boxes : vec) (height width : nat) (linewidth : Z)
    (edgecolor : string) (linestyle : option string) (label : string)
    : list artist :=
  match boxes with
  | [center_x; center_y; box_width; box_height] =>
      let xmin := ((center_x - (box_width / 2)) * INR width)%R in
      let xmax := ((center_x + (box_width / 2)) * INR width)%R in
      let ymin := ((center_y - (box_height / 2)) * INR height)%R in
      let ymax := ((center_y + (box_height / 2)) * INR height)%R in
      let width_rect := (xmax - xmin)%R in
      let height_rect := (ymax - ymin)%R in
      [Rectangle xmin ymin width_rect height_rect linewidth edgecolor
                 linestyle label]
  | _ => []
  end.

(** The image as it is shown: denormalised, clamped, channels last. *)
Definition shown (image : image) : tensor3 :=
  Tensor.permute120 (clamp01 (denormalize image mean std)).

Definition draw_bounding_boxes (image : image) (pred_boxes : vec)
    (text : string) (gt_boxes : option vec) (save_path : string) : figure :=
  let height := Tensor.size1 image in
  let width := length (hd [] (hd [] image)) in
  {| artists :=
       [ImShow (shown image)]
       ++ box_patch pred_boxes height width 3 "r" None "Prediction"
       ++ match gt_boxes with
          | Some gt => box_patch gt height width 2 "g" (Some "--") "Ground Truth"
          | None => []
          end
       ++ [AxText 20 20 ("Text: " ++ text); Legend "upper right"];
     save_path := save_path |}.

Definition draw_bounding_boxes_inference (image : image) (pred_boxes : vec)
    (text : string) (gt_boxes : option vec) (save_path : string) : figure :=
  let height := Tensor.size1 image in
  let width := length (hd [] (hd [] image)) in
  {| artists :=
       [ImShow (shown image)]
       ++ box_patch pred_boxes height width 3 "r" None "Prediction"
       ++ [AxText 20 20 ("Text: " ++ text); Legend "upper right"];
     save_path := save_path |}.

End Drawing.

Section DrawingProperties.

Import Drawing.

(** X20. [denormalize] keeps the number of channels and the shape of every
    channel; in a channel that has both a mean and a standard deviation
    every value [v] becomes [v * std + mean], and a channel without one of
    them is returned unchanged. *)
Theorem denormalize_channels (img : tensor3) (mean std : vec) :
  length (denormalize img mean std) = length img /\
  (forall c t m s,
      nth_error img c = Some t -> nth_error mean c = Some m ->
      nth_error std c = Some s ->
      nth_error (denormalize img mean std) c
      = Some (map (map (fun v => (v * s + m)%R)) t)) /\
  (forall c,
      Nat.min (length mean) (length std) <= c ->
      nth_error (denormalize img mean std) c = nth_error img c).
Proof.
  revert mean std.
  induction img as [| t img IH]; intros mean std.
  - repeat split; intros; destruct c; try discriminate; reflexivity.
  - destruct mean as [| m mean]; [|destruct std as [| s std]].
    + simpl. split; [reflexivity|]. split; [|reflexivity].
      intros c t0 m0 s0 _ H. destruct c; discriminate.
    + simpl. split; [reflexivity|]. split; [|reflexivity].
      intros c t0 m0 s0 _ _ H. destruct c; discriminate.
    + destruct (IH mean std) as [Hlen [Hin Hout]].
      cbn [denormalize length]. split; [now rewrite Hlen|]. split.
      * intros [| c] t0 m0 s0 Ht Hm Hs; simpl in *.
        -- now inversion Ht; inversion Hm; inversion Hs.
        -- now apply Hin.
      * intros [| c] Hc; simpl in *; [lia|]. apply Hout. lia.
Qed.

Lemma clamp01_range (img : tensor3) :
  Forall (Forall (Forall in01)) (clamp01 img).
Proof.
  unfold clamp01. apply Forall_map, Forall_forall. intros t _.
  apply Forall_map, Forall_forall. intros row _.
  apply Forall_map, Forall_forall. intros v _. unfold in01. split.
  - apply Rmin_case; [apply Rmax_r | lra].
  - apply Rmin_r.
Qed.

Lemma permute120_values (P : R -> Prop) (x : tensor3) :
  P 0%R -> Forall (Forall (Forall P)) x ->
  Forall (Forall (Forall P)) (Tensor.permute120 x).
Proof.
  intros H0 Hx. unfold Tensor.permute120, Tensor.permute102.
  assert (Hnth : forall (row : vec) c, Forall P row -> P (nth c row 0%R)).
  { intros row c Hrow. destruct (nth_in_or_default c row 0%R) as [Hin | ->];
      [|exact H0]. rewrite Forall_forall in Hrow. now apply Hrow. }
  assert (Hnth2 : forall (tok : mat) j, Forall (Forall P) tok ->
                                        Forall P (nth j tok [])).
  { intros tok j Htok. destruct (nth_in_or_default j tok []) as [Hin | ->];
      [|constructor]. rewrite Forall_forall in Htok. now apply Htok. }
  rewrite map_map. apply Forall_map, Forall_forall. intros j _.
  apply Forall_map, Forall_forall. intros c _.
  apply Forall_map, Forall_forall. intros v Hv.
  apply in_map_iff in Hv. destruct Hv as [tok [<- Htok]].
  apply Hnth, Hnth2. rewrite Forall_forall in Hx. now apply Hx.
Qed.

(** X22. For an image tensor of finite values (real numbers; a NaN pixel
    passes through [torch.clamp] and is outside this statement), every value
    of the image that the drawing functions show lies in [0,1]. *)
Theorem shown_image_in_unit_range (image : image) (pred_boxes : vec)
    (text : string) (gt_boxes : option vec) (path : string) :
  Forall (Forall (Forall in01)) (shown image) /\
  In (ImShow (shown image))
     (artists (draw_bounding_boxes image pred_boxes text gt_boxes path)) /\
  In (ImShow (shown image))
     (artists (draw_bounding_boxes_inference image pred_boxes text gt_boxes path)).
Proof.
  split; [|split; simpl; now left].
  unfold shown. apply permute120_values.
  - unfold in01. lra.
  - apply clamp01_range.
Qed.


Definition is_rectangle (a : artist) : bool :=
  match a with
  | Rectangle _ _ _ _ _ _ _ _ => true
  | _ => false
  end.

Lemma box_patch_count (boxes : vec) (H W : nat) (linewidth : Z)
    (edgecolor : string) (linestyle : option string) (label : string) :
  length (filter is_rectangle
                 (box_patch boxes H W linewidth edgecolor linestyle label))
  = if Nat.eqb (length boxes) 4 then 1 else 0.
Proof.
  destruct boxes as [| a [| b [| c [| d [| e rest]]]]]; reflexivity.
Qed.

(** X24. [draw_bounding_boxes] draws one rectangle for a prediction of
    exactly four entries and one more for a ground truth that is given and
    has four entries, and none otherwise; [draw_bounding_boxes_inference]
    ignores the ground truth it is passed and draws what
    [draw_bounding_boxes] draws without one. *)
Theorem drawn_rectangles (image : image) (pred_boxes : vec) (text : string)
    (gt_boxes : option vec) (path : string) :
  length (filter is_rectangle
            (artists (draw_bounding_boxes image pred_boxes text gt_boxes path)))
  = (if Nat.eqb (length pred_boxes) 4 then 1 else 0)
    + match gt_boxes with
      | Some gt => if Nat.eqb (length gt) 4 then 1 else 0
      | None => 0
      end /\
  draw_bounding_boxes_inference image pred_boxes text gt_boxes path
  = draw_bounding_boxes image pred_boxes text None path.
Proof.
  split; [|reflexivity].
  unfold draw_bounding_boxes. cbn [artists].
  rewrite !filter_app, !length_app, box_patch_count.
  destruct gt_boxes as [gt |]; [rewrite box_patch_count|]; simpl; lia.
Qed.

End DrawingProperties.

(** * More on the training loop *)

Section TrainingProperties.

Variables (model batch output : Type).
Variable call : model -> batch -> result output.
Variable loss_value : output -> batch -> PrimFloat.float.
Variable optimizer_step : model -> output -> batch -> model.

(** The state in which an epoch ends, returned or raised. *)
Definition final_state (o : Engine.outcome model) : Engine.state model :=
  match o with
  | Engine.Returned st => st
  | Engine.Raised _ st => st
  end.

(** X25. However an epoch ends, the losses handed to the metric logger are
    finite if those before the epoch were, and the iteration counter has
    advanced by the number of losses logged, which is the number of
    optimizer steps taken and at most the number of batches. *)
Theorem logged_losses_finite (st : Engine.state model)
    (data_loader : list batch) :
  let st' := final_state
               (Engine.data_loop call loss_value optimizer_step st data_loader) in
  (Forall (fun x => Engine.isfinite x = true) (Engine.logged st) ->
   Forall (fun x => Engine.isfinite x = true) (Engine.logged st')) /\
  exists steps,
    steps <= length data_loader /\
    Engine.iter st' = Engine.iter st + steps /\
    length (Engine.logged st') = length (Engine.logged st) + steps.
Proof.
  cbv zeta. revert st.
  induction data_loader as [| b rest IH]; intros st; simpl.
  - split; [auto|]. exists 0. repeat split; lia.
  - destruct (call (Engine.weights st) b) as [out | e]; simpl.
    + destruct (Engine.isfinite (loss_value out b)) eqn:Hf; simpl.
      * destruct (IH (Engine.update loss_value optimizer_step st out b))
          as [Hfin [steps [Hle [Hiter Hlog]]]].
        split.
        -- intros Hst. apply Hfin. simpl. apply Forall_app. split; auto.
        -- exists (S steps). simpl in Hiter, Hlog.
           rewrite length_app in Hlog. simpl in Hlog.
           repeat split; lia.
      * split; [auto|]. exists 0. repeat split; lia.
    + split; [auto|]. exists 0. repeat split; lia.
Qed.

(** X26. A batch on which the model call raises ends the epoch with that
    exception, in the state the batches before it left: no loss is computed
    or logged and no optimizer step is taken for it. *)
Theorem model_error_ends_epoch (st st' : Engine.state model)
    (pre rest : list batch) (b : batch) (e : exn) :
  Engine.data_loop call loss_value optimizer_step st pre = Engine.Returned st' ->
  call (Engine.weights st') b = Raise e ->
  Engine.data_loop call loss_value optimizer_step st (pre ++ b :: rest)
  = Engine.Raised e st'.
Proof.
  intros Hpre Hcall.
  rewrite (@Engine.data_loop_app model batch output call loss_value
             optimizer_step st st' pre (b :: rest) Hpre).
  simpl. now rewrite Hcall.
Qed.

End TrainingProperties.

(** X26 with a model that fails on its second batch. *)
Lemma model_error_ends_epoch_witness :
  Engine.data_loop
    (fun (m : nat) (b : PrimFloat.float) =>
       if Nat.eqb m 1 then Raise RuntimeError else Ok b)
    (fun out _ => out) (fun m _ _ => S m)
    {| Engine.weights := 0; Engine.iter := 0; Engine.logged := [] |}
    ([PrimFloat.one] ++ PrimFloat.two :: [PrimFloat.one])
  = Engine.Raised RuntimeError
      {| Engine.weights := 1; Engine.iter := 1;
         Engine.logged := [PrimFloat.one] |}.
Proof.
  exact (model_error_ends_epoch nat PrimFloat.float PrimFloat.float
           (fun (m : nat) (b : PrimFloat.float) =>
              if Nat.eqb m 1 then Raise RuntimeError else Ok b)
           (fun out _ => out) (fun m _ _ => S m)
           {| Engine.weights := 0; Engine.iter := 0; Engine.logged := [] |}
           {| Engine.weights := 1; Engine.iter := 1;
              Engine.logged := [PrimFloat.one] |}
           [PrimFloat.one] [PrimFloat.one] PrimFloat.two RuntimeError
           eq_refl eq_refl).
Defined.

(** ** The loops of [engine.py] on [DynamicFSMDETR] *)

(** A batch of the data loader, as the loops unpack it. *)
Record Batch : Type := {
  batch_img_data : NestedTensor image;
  batch_text_data : NestedTensor (list Z);
  batch_target : mat;
  batch_tem_imgs : list (NestedTensor image);
  batch_tem_txts : list (NestedTensor (list Z));
  batch_tem_bboxes : list mat;
  batch_category : list Z;
  batch_tem_cat : list Z
}.

(** [model(img_data, text_data, tem_imgs, tem_txts, category, tem_cat)] *)
Definition call_model (self : DynamicFSMDETR) (b : Batch)
    : result (option mat) :=
  module_call self
    [PyImages (batch_img_data b); PyText (batch_text_data b);
     PyImageList (batch_tem_imgs b); PyTextList (batch_tem_txts b);
     PyLabels (batch_category b); PyLabels (batch_tem_cat b)].

(** X27. With a [DynamicFSMDETR] as the model, [train_one_epoch] on a
    loader with at least one batch ends at the first batch with [TypeError],
    before any loss is computed or any optimizer step is taken: the loop
    passes six inputs to a [forward] that takes two. *)
Theorem train_one_epoch_type_error
    (loss_value : option mat -> Batch -> PrimFloat.float)
    (optimizer_step : DynamicFSMDETR -> option mat -> Batch -> DynamicFSMDETR)
    (self : DynamicFSMDETR) (b : Batch) (rest : list Batch) (epoch : nat) :
  Engine.train_one_epoch call_model loss_value optimizer_step self
                         (b :: rest) epoch
  = Engine.Raised TypeError
      {| Engine.weights := self;
         Engine.iter := epoch * length (b :: rest);
         Engine.logged := [] |}.
Proof. reflexivity. Qed.

(** * [evaluate] and [inference] *)

Module Evaluation.

Local Open Scope string_scope.

(** [str(batch_idx)] *)
Definition str_of_nat (n : nat) : string :=
  DecimalString.NilEmpty.string_of_uint (Nat.to_uint n).

Definition eval_path (batch_idx : nat) : string :=
  "batch_" ++ str_of_nat batch_idx ++ "_eval_image.png".

Definition inference_path (batch_idx : nat) : string :=
  "batch_" ++ str_of_nat batch_idx ++ "_inference_image.png".

Local Close Scope string_scope.

(** [torch.cat(xs, dim=0)] of a list of 2-D tensors; the empty list raises
    [RuntimeError]. *)
Definition cat_dim0 (xs : list mat) : result mat :=
  match xs with
  | [] => Raise RuntimeError
  | _ => Ok (concat xs)
  end.

(** [ZeroDivisionError] besides the exceptions of the model. *)
Inductive error : Type :=
| Exception (e : exn)
| ZeroDivisionError.

(** How a loop ends, with the figures it has saved. *)
Inductive finished (A : Type) : Type :=
| Returns (a : A) (saved : list Drawing.figure)
| Raises (e : error) (saved : list Drawing.figure).

Arguments Returns {A} a saved.
Arguments Raises {A} e saved.

Section Loops.

(** The model, [tokenizer.decode], [eval_utils.trans_vg_eval_test] and
    [dist.all_reduce] on the pair [(accu_num, total_num)]. The accuracy is a
    real number. *)
Variable model : Type.
Variable call : model -> Batch -> result (option mat).
Variable decode : list Z -> string.
Variable trans_vg_eval_test : mat -> mat -> Z.
Variable all_reduce : Z * Z -> Z * Z.

Record eval_state : Type := {
  pred_box_list : list mat;
  gt_box_list : list mat;
  saved : list Drawing.figure
}.

(** The body of the loop of [evaluate] on one batch. *)
Definition eval_batch (m : model) (batch_idx : nat) (b : Batch)
    (st : eval_state) : result eval_state :=
  (out <- call m b ;;
   output <- match out with
             | Some output => Ok output
             | None => Raise AttributeError
             end ;;
   let preds := pred_box_list st ++ [output] in
   let gts := gt_box_list st ++ [batch_target b] in
   current_text_tokens <- Tensor.getitem (tensors (batch_text_data b)) 0 ;;
   let current_text := decode current_text_tokens in
   if Nat.eqb (batch_idx mod 20) 0 then
     image <- Tensor.getitem (tensors (batch_img_data b)) 0 ;;
     pred <- Tensor.getitem output 0 ;;
     gt <- Tensor.getitem (batch_target b) 0 ;;
     Ok {| pred_box_list := preds;
           gt_box_list := gts;
           saved := saved st ++
                    [Drawing.draw_bounding_boxes image pred current_text
                       (Some gt) (eval_path batch_idx)] |}
   else
     Ok {| pred_box_list := preds; gt_box_list := gts; saved := saved st |})%py.

Fixpoint eval_loop (m : model) (batch_idx : nat) (st : eval_state)
    (data_loader : list Batch) : eval_state * option exn :=
  match data_loader with
  | [] => (st, None)
  | b :: rest =>
      match eval_batch m batch_idx b st with
      | Ok st' => eval_loop m (S batch_idx) st' rest
      | Raise e => (st, Some e)
      end
  end.

Definition evaluate (m : model) (data_loader : list Batch) : finished R :=
  match eval_loop m 0 {| pred_box_list := []; gt_box_list := []; saved := [] |}
                  data_loader with
  | (st, Some e) => Raises (Exception e) (saved st)
  | (st, None) =>
      match cat_dim0 (pred_box_list st) with
      | Raise e => Raises (Exception e) (saved st)
      | Ok pred_boxes =>
          match cat_dim0 (gt_box_list st) with
          | Raise e => Raises (Exception e) (saved st)
          | Ok gt_boxes =>
              let total_num := Z.of_nat (length gt_boxes) in
              let accu_num := trans_vg_eval_test pred_boxes gt_boxes in
              let '(r0, r1) := all_reduce (accu_num, total_num) in
              if (r1 =? 0)%Z then Raises ZeroDivisionError (saved st)
              else Returns (IZR r0 / IZR r1)%R (saved st)
          end
      end
  end.

(** The body of the loop of [inference] on one batch: the output is only
    looked at when the batch is drawn. *)
Definition inference_batch (m : model) (batch_idx : nat) (b : Batch)
    (figs : list Drawing.figure) : result (list Drawing.figure) :=
  (out <- call m b ;;
   current_text_tokens <- Tensor.getitem (tensors (batch_text_data b)) 0 ;;
   let current_text := decode current_text_tokens in
   if Nat.eqb (batch_idx mod 20) 0 then
     image <- Tensor.getitem (tensors (batch_img_data b)) 0 ;;
     output <- match out with
               | Some output => Ok output
               | None => Raise TypeError
               end ;;
     pred <- Tensor.getitem output 0 ;;
     Ok (figs ++
         [Drawing.draw_bounding_boxes_inference image pred current_text None
            (inference_path batch_idx)])
   else Ok figs)%py.

Fixpoint inference_loop (m : model) (batch_idx : nat)
    (figs : list Drawing.figure) (data_loader : list Batch)
    : list Drawing.figure * option exn :=
  match data_loader with
  | [] => (figs, None)
  | b :: rest =>
      match inference_batch m batch_idx b figs with
      | Ok figs' => inference_loop m (S batch_idx) figs' rest
      | Raise e => (figs, Some e)
      end
  end.

Definition inference (m : model) (data_loader : list Batch) : finished unit :=
  match inference_loop m 0 [] data_loader with
  | (figs, Some e) => Raises (Exception e) figs
  | (figs, None) => Returns tt figs
  end.

End Loops.

End Evaluation.

Section EvaluationProperties.

Import Evaluation.

Variable model : Type.
Variable call : model -> Batch -> result (option mat).
Variable decode : list Z -> string.
Variable trans_vg_eval_test : mat -> mat -> Z.
Variable all_reduce : Z * Z -> Z * Z.

(** The batch indices at which a loop over [n] batches draws. *)
Definition drawn_indices (start n : nat) : list nat :=
  filter (fun k => Nat.eqb (k mod 20) 0) (seq start n).

Lemma eval_batch_ok (m : model) (idx : nat) (b : Batch)
    (st st' : eval_state) :
  eval_batch model call decode m idx b st = Ok st' ->
  exists output,
    call m b = Ok (Some output) /\
    pred_box_list st' = pred_box_list st ++ [output] /\
    gt_box_list st' = gt_box_list st ++ [batch_target b] /\
    map Drawing.save_path (saved st')
    = map Drawing.save_path (saved st)
      ++ map eval_path (if Nat.eqb (idx mod 20) 0 then [idx] else []).
Proof.
  unfold eval_batch. intros H.
  apply bind_ok in H. destruct H as [out [Hcall H]].
  apply bind_ok in H. destruct H as [output [Hout H]].
  destruct out as [o |]; [|discriminate]. inversion Hout; subst o.
  apply bind_ok in H. destruct H as [tokens [_ H]].
  exists output. split; [exact Hcall|].
  destruct (Nat.eqb (idx mod 20) 0).
  - apply bind_ok in H. destruct H as [img [_ H]].
    apply bind_ok in H. destruct H as [pred [_ H]].
    apply bind_ok in H. destruct H as [gt [_ H]].
    inversion H; subst; simpl. rewrite map_app. auto.
  - inversion H; subst; simpl. rewrite app_nil_r. auto.
Qed.

Lemma eval_loop_ok (m : model) (loader : list Batch) (idx : nat)
    (st st' : eval_state) :
  eval_loop model call decode m idx st loader = (st', None) ->
  (exists outputs,
      Forall2 (fun b o => call m b = Ok (Some o)) loader outputs /\
      pred_box_list st' = pred_box_list st ++ outputs) /\
  gt_box_list st' = gt_box_list st ++ map batch_target loader /\
  map Drawing.save_path (saved st')
  = map Drawing.save_path (saved st)
    ++ map eval_path (drawn_indices idx (length loader)).
Proof.
  revert idx st. induction loader as [| b rest IH]; intros idx st; simpl.
  - intros H. inversion H; subst. split; [|split].
    + exists []. split; [constructor | now rewrite app_nil_r].
    + now rewrite app_nil_r.
    + now rewrite app_nil_r.
  - destruct (eval_batch model call decode m idx b st) as [st1 | e] eqn:Hb;
      [|discriminate].
    intros H. apply eval_batch_ok in Hb.
    destruct Hb as [output [Hcall [Hp [Hg Hs]]]].
    destruct (IH _ _ H) as [[outputs [Hall Hp']] [Hg' Hs']].
    split; [|split].
    + exists (output :: outputs). split; [now constructor|].
      rewrite Hp', Hp, <- app_assoc. reflexivity.
    + rewrite Hg', Hg, <- app_assoc. reflexivity.
    + rewrite Hs', Hs, <- app_assoc. f_equal.
      unfold drawn_indices. cbn [seq filter length].
      destruct (Nat.eqb (idx mod 20) 0); reflexivity.
Qed.

Lemma inference_batch_ok (m : model) (idx : nat) (b : Batch)
    (figs figs' : list Drawing.figure) :
  inference_batch model call decode m idx b figs = Ok figs' ->
  map Drawing.save_path figs'
  = map Drawing.save_path figs
    ++ map inference_path (if Nat.eqb (idx mod 20) 0 then [idx] else []).
Proof.
  unfold inference_batch. intros H.
  apply bind_ok in H. destruct H as [out [_ H]].
  apply bind_ok in H. destruct H as [tokens [_ H]].
  destruct (Nat.eqb (idx mod 20) 0).
  - apply bind_ok in H. destruct H as [img [_ H]].
    apply bind_ok in H. destruct H as [output [_ H]].
    apply bind_ok in H. destruct H as [pred [_ H]].
    inversion H; subst. now rewrite map_app.
  - inversion H; subst. now rewrite app_nil_r.
Qed.

Lemma inference_loop_ok (m : model) (loader : list Batch) (idx : nat)
    (figs figs' : list Drawing.figure) :
  inference_loop model call decode m idx figs loader = (figs', None) ->
  map Drawing.save_path figs'
  = map Drawing.save_path figs
    ++ map inference_path (drawn_indices idx (length loader)).
Proof.
  revert idx figs. induction loader as [| b rest IH]; intros idx figs; simpl.
  - intros H. inversion H; subst. now rewrite app_nil_r.
  - destruct (inference_batch model call decode m idx b figs) as [figs1 | e] eqn:Hb;
      [|discriminate].
    intros H. apply inference_batch_ok in Hb.
    rewrite (IH _ _ H), Hb, <- app_assoc. f_equal.
    unfold drawn_indices. cbn [seq filter length].
    destruct (Nat.eqb (idx mod 20) 0); reflexivity.
Qed.

(** X28. An evaluation or an inference that returns has saved one figure
    for each batch whose index is a multiple of 20, in the order of the
    batches and under the name made from that index; no other file is
    written. *)
Theorem figures_every_twentieth_batch (m : model) (data_loader : list Batch) :
  (forall accuracy figs,
      evaluate model call decode trans_vg_eval_test all_reduce m data_loader
        = Returns accuracy figs ->
      map Drawing.save_path figs
      = map eval_path (drawn_indices 0 (length data_loader))) /\
  (forall figs,
      inference model call decode m data_loader = Returns tt figs ->
      map Drawing.save_path figs
      = map inference_path (drawn_indices 0 (length data_loader))).
Proof.
  split.
  - intros accuracy figs. unfold evaluate.
    destruct (eval_loop model call decode m 0 _ data_loader) as [st [e |]] eqn:Hloop;
      [discriminate|].
    apply eval_loop_ok in Hloop. destruct Hloop as [_ [_ Hs]].
    destruct (cat_dim0 (pred_box_list st)); [|discriminate].
    destruct (cat_dim0 (gt_box_list st)); [|discriminate].
    destruct (all_reduce _) as [r0 r1].
    destruct (r1 =? 0)%Z; [discriminate|].
    intros H. inversion H; subst. exact Hs.
  - intros figs. unfold inference.
    destruct (inference_loop model call decode m 0 [] data_loader)
      as [figs' [e |]] eqn:Hloop; [discriminate|].
    intros H. inversion H; subst.
    exact (inference_loop_ok m data_loader 0 [] figs Hloop).
Qed.

(** X29. [evaluate] on an empty loader raises [RuntimeError] and saves
    nothing. When it returns, the model has answered every batch with a
    box tensor, and the accuracy is the quotient of the two numbers that
    [all_reduce] gives for the number of correct boxes among all outputs and
    the number of target rows of all batches, the second not being zero. *)
Theorem evaluate_accuracy (m : model) (data_loader : list Batch) :
  evaluate model call decode trans_vg_eval_test all_reduce m []
    = Raises (Exception RuntimeError) [] /\
  (forall accuracy figs,
      evaluate model call decode trans_vg_eval_test all_reduce m data_loader
        = Returns accuracy figs ->
      exists outputs r0 r1,
        data_loader <> [] /\
        Forall2 (fun b o => call m b = Ok (Some o)) data_loader outputs /\
        all_reduce
          (trans_vg_eval_test (concat outputs)
                              (concat (map batch_target data_loader)),
           Z.of_nat (length (concat (map batch_target data_loader))))
          = (r0, r1) /\
        r1 <> 0%Z /\
        accuracy = (IZR r0 / IZR r1)%R).
Proof.
  split; [reflexivity|].
  intros accuracy figs. unfold evaluate.
  destruct (eval_loop model call decode m 0 _ data_loader) as [st [e |]] eqn:Hloop;
    [discriminate|].
  apply eval_loop_ok in Hloop.
  destruct Hloop as [[outputs [Hall Hp]] [Hg _]]. simpl in Hp, Hg.
  rewrite Hp, Hg. unfold cat_dim0.
  destruct outputs as [| o outputs]; [discriminate|].
  destruct data_loader as [| b rest]; [inversion Hall|].
  cbn [map].
  destruct (all_reduce _) as [r0 r1] eqn:Hred.
  destruct (Z.eqb_spec r1 0) as [| Hne]; [discriminate|].
  intros H. inversion H; subst.
  exists (o :: outputs), r0, r1. repeat split; auto. discriminate.
Qed.

End EvaluationProperties.

(** A loader of one batch and a model that answers with the target, for the
    concrete runs of the two loops. *)
Module ToyLoader.

Definition batch : Batch :=
  {| batch_img_data := Toy.img_data;
     batch_text_data := Toy.text_data;
     batch_target := [[0.5%R; 0.5%R; 1%R; 1%R]];
     batch_tem_imgs := [];
     batch_tem_txts := [];
     batch_tem_bboxes := [];
     batch_category := [];
     batch_tem_cat := [] |}.

Definition call (_ : unit) (b : Batch) : result (option mat) :=
  Ok (Some (batch_target b)).

Definition decode (_ : list Z) : string := "a cat"%string.

Definition all_correct (pred_boxes _ : mat) : Z := Z.of_nat (length pred_boxes).

Definition figure : Drawing.figure :=
  Drawing.draw_bounding_boxes [[[0%R]]] [0.5%R; 0.5%R; 1%R; 1%R]
    "a cat"%string (Some [0.5%R; 0.5%R; 1%R; 1%R]) (Evaluation.eval_path 0).

End ToyLoader.

(** X28 on a loader of one batch: the figure of batch 0 is saved. *)
Lemma figures_every_twentieth_batch_witness :
  map Drawing.save_path [ToyLoader.figure]
  = map Evaluation.eval_path (drawn_indices 0 1).
Proof.
  exact (proj1 (figures_every_twentieth_batch unit ToyLoader.call
                  ToyLoader.decode ToyLoader.all_correct (fun r => r) tt
                  [ToyLoader.batch])
               (IZR 1 / IZR 1)%R [ToyLoader.figure] eq_refl).
Defined.

(** X29 on the same loader: one box, one target, accuracy 1 / 1. *)
Lemma evaluate_accuracy_witness :
  exists outputs r0 r1,
    [ToyLoader.batch] <> [] /\
    Forall2 (fun b o => ToyLoader.call tt b = Ok (Some o))
            [ToyLoader.batch] outputs /\
    (ToyLoader.all_correct (concat outputs)
       (concat (map batch_target [ToyLoader.batch])),
     Z.of_nat (length (concat (map batch_target [ToyLoader.batch]))))
    = (r0, r1) /\
    r1 <> 0%Z /\
    (IZR 1 / IZR 1)%R = (IZR r0 / IZR r1)%R.
Proof.
  exact (proj2 (evaluate_accuracy unit ToyLoader.call ToyLoader.decode
                  ToyLoader.all_correct (fun r => r) tt [ToyLoader.batch])
               (IZR 1 / IZR 1)%R [ToyLoader.figure] eq_refl).
Defined.

(** X30. With a [DynamicFSMDETR] as the model, [evaluate] and [inference]
    on a loader with at least one batch end at the first batch with
    [TypeError] and save no figure, for the same reason as the training
    loop. *)
Theorem evaluation_type_error (decode : list Z -> string)
    (trans_vg_eval_test : mat -> mat -> Z) (all_reduce : Z * Z -> Z * Z)
    (self : DynamicFSMDETR) (b : Batch) (rest : list Batch) :
  Evaluation.evaluate DynamicFSMDETR call_model decode trans_vg_eval_test
                      all_reduce self (b :: rest)
    = Evaluation.Raises (Evaluation.Exception TypeError) [] /\
  Evaluation.inference DynamicFSMDETR call_model decode self (b :: rest)
    = Evaluation.Raises (Evaluation.Exception TypeError) [].
Proof. split; reflexivity. Qed.
